(** * cdk-migration-tool: the VPC migration MCP server

    A shallow embedding of the request handlers of the server: the
    variant that works by patterns and substrings ([build/migration.js]
    and the source it is compiled from) and the sibling variant that
    returns placeholder data, together with the properties its
    specification states about them.

    JavaScript strings are sequences of UTF-16 code units; they are
    modelled as lists of [N].  A handler is an [async] function; an awaited
    call is modelled as the call, and a rejection as a throw.  The
    [console.error] diagnostics go to the standard error stream and are
    never read back; they are left out.  The schema of a tool makes each
    of its arguments a string, so the arguments are strings here. *)

From Stdlib Require Import Ascii String DecimalString.
From Stdlib Require Import List NArith Arith Bool Lia.
Import ListNotations.

(** ** JavaScript strings *)

Module JS.

Definition jsstring := list N.

(** A source-code string literal.  Every literal of the program is ASCII,
    so each byte is one code unit. *)
Definition lit (s : string) : jsstring :=
  map N_of_ascii (list_ascii_of_string s).

(** The double-quote character. *)
Definition dq : jsstring := [34%N].

Fixpoint startsWith (s p : jsstring) {struct p} : bool :=
  match p with
  | [] => true
  | c :: p' =>
      match s with
      | [] => false
      | d :: s' => N.eqb d c && startsWith s' p'
      end
  end.

(** [String.prototype.includes]: some position of [s] starts with [sub]. *)
Fixpoint includes (s sub : jsstring) : bool :=
  startsWith s sub ||
  match s with
  | [] => false
  | _ :: s' => includes s' sub
  end.

(** Number of positions of [s] at which [sub] starts. *)
Fixpoint occurrences (s sub : jsstring) : nat :=
  (if startsWith s sub then 1 else 0) +
  match s with
  | [] => 0
  | _ :: s' => occurrences s' sub
  end.

(** [Array.prototype.join]. *)
Fixpoint join (sep : jsstring) (l : list jsstring) : jsstring :=
  match l with
  | [] => []
  | [x] => x
  | x :: l' => x ++ sep ++ join sep l'
  end.

(** White space and line terminators: the set of [\s] in a regular
    expression and of [String.prototype.trim]. *)
Definition isWhiteSpace (c : N) : bool :=
  ((9 <=? c) && (c <=? 13) || (c =? 32) || (c =? 160) || (c =? 5760) ||
   (8192 <=? c) && (c <=? 8202) || (c =? 8232) || (c =? 8233) ||
   (c =? 8239) || (c =? 8287) || (c =? 12288) || (c =? 65279))%N.

Fixpoint trimStart (s : jsstring) : jsstring :=
  match s with
  | c :: s' => if isWhiteSpace c then trimStart s' else s
  | [] => []
  end.

Definition trim (s : jsstring) : jsstring :=
  rev (trimStart (rev (trimStart s))).

(** [String.prototype.substring (0, n)]. *)
Definition substring0 (n : nat) (s : jsstring) : jsstring := firstn n s.

(** [Number.prototype.toString] on a natural number. *)
Definition numberToString (n : N) : jsstring :=
  lit (NilEmpty.string_of_uint (N.to_uint n)).

(** *** JSON.stringify (value, null, 2) *)

Unset Elimination Schemes.
Inductive json :=
| JNull
| JBool (b : bool)
| JNum (n : N)
| JStr (s : jsstring)
| JArr (l : list json)
| JObj (l : list (jsstring * json)).
Set Elimination Schemes.

Definition hexDigit (d : N) : N :=
  (if d <? 10 then 48 + d else 87 + d)%N.

(** [\uXXXX] with four lower-case hexadecimal digits. *)
Definition unicodeEscape (c : N) : jsstring :=
  lit "\u" ++
  [hexDigit (c / 4096 mod 16); hexDigit (c / 256 mod 16);
   hexDigit (c / 16 mod 16); hexDigit (c mod 16)]%N.

Definition isLeadingSurrogate (c : N) : bool := ((55296 <=? c) && (c <=? 56319))%N.
Definition isTrailingSurrogate (c : N) : bool := ((56320 <=? c) && (c <=? 57343))%N.

Definition quoteChar (c : N) : jsstring :=
  (if c =? 8 then lit "\b"
   else if c =? 9 then lit "\t"
   else if c =? 10 then lit "\n"
   else if c =? 12 then lit "\f"
   else if c =? 13 then lit "\r"
   else if c =? 34 then lit "\" ++ dq
   else if c =? 92 then lit "\\"
   else if c <? 32 then unicodeEscape c
   else [c])%N.

(** The characters of QuoteJSONString: a surrogate pair is kept, a lone
    surrogate is escaped. *)
Fixpoint quoteChars (s : jsstring) : jsstring :=
  match s with
  | [] => []
  | c :: s' =>
      if isLeadingSurrogate c then
        match s' with
        | d :: s'' =>
            if isTrailingSurrogate d then c :: d :: quoteChars s''
            else unicodeEscape c ++ quoteChars s'
        | [] => unicodeEscape c
        end
      else if isTrailingSurrogate c then unicodeEscape c ++ quoteChars s'
      else quoteChar c ++ quoteChars s'
  end.

Definition quoteJSONString (s : jsstring) : jsstring :=
  dq ++ quoteChars s ++ dq.

Definition gap : jsstring := lit "  ".

Definition newline : jsstring := [10%N].

(** SerializeJSONProperty with the indentation [indent] reached so far. *)
Fixpoint serialize (indent : jsstring) (v : json) : jsstring :=
  match v with
  | JNull => lit "null"
  | JBool true => lit "true"
  | JBool false => lit "false"
  | JNum n => numberToString n
  | JStr s => quoteJSONString s
  | JArr l =>
      match l with
      | [] => lit "[]"
      | _ =>
          let inner := indent ++ gap in
          lit "[" ++ newline ++ inner ++
          join (lit "," ++ newline ++ inner) (map (serialize inner) l) ++
          newline ++ indent ++ lit "]"
      end
  | JObj l =>
      match l with
      | [] => lit "{}"
      | _ =>
          let inner := indent ++ gap in
          lit "{" ++ newline ++ inner ++
          join (lit "," ++ newline ++ inner)
               (map (fun kv => quoteJSONString (fst kv) ++ lit ":" ++ lit " " ++
                               serialize inner (snd kv)) l) ++
          newline ++ indent ++ lit "}"
      end
  end.

Definition stringify (v : json) : jsstring := serialize [] v.

End JS.
Import JS.

(** ** Regular expressions

    The fragment of ECMAScript regular expressions the program uses:
    characters, character classes, sequences, a greedy optional group, a
    greedy or lazy star of a character class, and one capture group.  The
    matcher is the backtracking matcher of the language specification,
    written with continuations: each pattern tries its alternatives in
    priority order and hands the rest of the input to its continuation. *)

Module Regex.

Inductive regex :=
| Eps
| Chr (c : N)
| Class (p : N -> bool)
| Seq (a b : regex)
| Opt (a : regex)
| Star (p : N -> bool) (greedy : bool)
| Group (a : regex).

(** A literal run of characters. *)
Fixpoint str (l : jsstring) : regex :=
  match l with
  | [] => Eps
  | c :: l' => Seq (Chr c) (str l')
  end.

(** [p+] is [p p*]. *)
Definition Plus (p : N -> bool) : regex := Seq (Class p) (Star p true).

(** [\s], [[^c]] and [[\s\S]]. *)
Definition space : N -> bool := isWhiteSpace.
Definition notChar (c : N) : N -> bool := fun d => negb (N.eqb d c).
Definition anyChar : N -> bool := fun _ => true.

(** The state of a match: the input still to read and capture 1. *)
Definition mstate := (jsstring * option jsstring)%type.
Definition cont := jsstring -> option jsstring -> option mstate.

Definition orElse (x : option mstate) (y : option mstate) : option mstate :=
  match x with
  | Some r => Some r
  | None => y
  end.

Fixpoint star (p : N -> bool) (greedy : bool) (k : cont)
         (cap : option jsstring) (s : jsstring) : option mstate :=
  match s with
  | [] => k [] cap
  | c :: s' =>
      if greedy then
        if p c then orElse (star p greedy k cap s') (k s cap) else k s cap
      else
        orElse (k s cap) (if p c then star p greedy k cap s' else None)
  end.

(** The part of [s] read before [rest] was reached. *)
Definition consumed (s rest : jsstring) : jsstring :=
  firstn (length s - length rest) s.

Fixpoint run (r : regex) (s : jsstring) (cap : option jsstring) (k : cont)
  : option mstate :=
  match r with
  | Eps => k s cap
  | Chr c =>
      match s with
      | d :: s' => if N.eqb d c then k s' cap else None
      | [] => None
      end
  | Class p =>
      match s with
      | d :: s' => if p d then k s' cap else None
      | [] => None
      end
  | Seq a b => run a s cap (fun s' cap' => run b s' cap' k)
  | Opt a => orElse (run a s cap k) (k s cap)
  | Star p greedy => star p greedy k cap s
  | Group a => run a s cap (fun s' _ => k s' (Some (consumed s s')))
  end.

(** A match that starts at the first character of [s]. *)
Definition exec (r : regex) (s : jsstring) : option mstate :=
  run r s None (fun s' cap => Some (s', cap)).

Fixpoint hasGroup (r : regex) : bool :=
  match r with
  | Seq a b => hasGroup a || hasGroup b
  | Opt a => hasGroup a
  | Group _ => true
  | _ => false
  end.

Definition captures (r : regex) (cap : option jsstring) : list (option jsstring) :=
  if hasGroup r then [cap] else [].

(** [str.match (r)] without the [g] flag: the leftmost match, as the
    matched text and its captures. *)
Fixpoint search (r : regex) (s : jsstring)
  : option (jsstring * list (option jsstring)) :=
  match exec r s with
  | Some (rest, cap) => Some (consumed s rest, captures r cap)
  | None =>
      match s with
      | [] => None
      | _ :: s' => search r s'
      end
  end.

(** [str.match (r)] with the [g] flag: every match from left to right,
    each search resuming where the last match ended (one further after an
    empty match).  [skip] counts the characters of the last match still to
    step over. *)
Fixpoint matchAllFrom (r : regex) (s : jsstring) (skip : nat) : list jsstring :=
  match s with
  | [] =>
      match skip, exec r [] with
      | O, Some _ => [[]]
      | _, _ => []
      end
  | _ :: s' =>
      match skip with
      | S n => matchAllFrom r s' n
      | O =>
          match exec r s with
          | Some (rest, _) =>
              consumed s rest :: matchAllFrom r s' (length (consumed s rest) - 1)
          | None => matchAllFrom r s' 0
          end
      end
  end.

Definition matchAll (r : regex) (s : jsstring) : list jsstring :=
  matchAllFrom r s 0.

(** *** Replacement templates *)

Definition isDigit (c : N) : bool := ((48 <=? c) && (c <=? 57))%N.
Definition digitValue (c : N) : nat := N.to_nat (c - 48).

Definition capture (captures : list (option jsstring)) (index : nat) : jsstring :=
  match nth_error captures (index - 1) with
  | Some (Some x) => x
  | _ => []
  end.

(** GetSubstitution: [$$], [$&], [$`], [$'], [$n] and [$nn] are
    expanded; a [$n] beyond the number of captures stays as it is
    written. *)
Fixpoint getSubstitution (matched before after : jsstring)
         (caps : list (option jsstring)) (tpl : jsstring) : jsstring :=
  match tpl with
  | [] => []
  | c :: t =>
      if negb (N.eqb c 36) then c :: getSubstitution matched before after caps t
      else
        match t with
        | [] => [c]
        | d1 :: t1 =>
            if N.eqb d1 36 then 36%N :: getSubstitution matched before after caps t1
            else if N.eqb d1 38 then matched ++ getSubstitution matched before after caps t1
            else if N.eqb d1 96 then before ++ getSubstitution matched before after caps t1
            else if N.eqb d1 39 then after ++ getSubstitution matched before after caps t1
            else if isDigit d1 then
              let one :=
                let index := digitValue d1 in
                if (1 <=? index) && (index <=? length caps)
                then capture caps index ++ getSubstitution matched before after caps t1
                else c :: d1 :: getSubstitution matched before after caps t1 in
              match t1 with
              | d2 :: t2 =>
                  if isDigit d2 then
                    let index := 10 * digitValue d1 + digitValue d2 in
                    if length caps <? index then one
                    else if 1 <=? index
                    then capture caps index ++ getSubstitution matched before after caps t2
                    else c :: d1 :: d2 :: getSubstitution matched before after caps t2
                  else one
              | [] => one
              end
            else c :: getSubstitution matched before after caps t
        end
  end.

(** [str.replace (r, tpl)] with the [g] flag.  [before] is the input
    already passed. *)
Fixpoint replaceAllFrom (r : regex) (tpl : jsstring) (before s : jsstring)
         (skip : nat) : jsstring :=
  match s with
  | [] =>
      match skip, exec r [] with
      | O, Some (_, cap) => getSubstitution [] before [] (captures r cap) tpl
      | _, _ => []
      end
  | c :: s' =>
      match skip with
      | S n => replaceAllFrom r tpl (before ++ [c]) s' n
      | O =>
          match exec r s with
          | Some (rest, cap) =>
              getSubstitution (consumed s rest) before rest (captures r cap) tpl ++
              match consumed s rest with
              | [] => c :: replaceAllFrom r tpl (before ++ [c]) s' 0
              | _ :: m => replaceAllFrom r tpl (before ++ [c]) s' (length m)
              end
          | None => c :: replaceAllFrom r tpl (before ++ [c]) s' 0
          end
      end
  end.

Definition replaceAll (r : regex) (tpl : jsstring) (s : jsstring) : jsstring :=
  replaceAllFrom r tpl [] s 0.

(** The first position of [s] at which [sub] starts, as the text before
    it and the text after the occurrence. *)
Fixpoint splitAtFirst (s sub : jsstring) : option (jsstring * jsstring) :=
  if startsWith s sub then Some ([], skipn (length sub) s)
  else
    match s with
    | [] => None
    | c :: s' =>
        match splitAtFirst s' sub with
        | Some (a, b) => Some (c :: a, b)
        | None => None
        end
    end.

(** [str.replace (sub, tpl)] with a string pattern: the first occurrence
    only, and no captures. *)
Definition replaceString (s sub tpl : jsstring) : jsstring :=
  match splitAtFirst s sub with
  | Some (a, b) => a ++ getSubstitution sub a b [] tpl ++ b
  | None => s
  end.

(** The words of a pattern, whatever the order in which the matcher tries
    them. *)
Inductive lang : regex -> jsstring -> Prop :=
| LEps : lang Eps []
| LChr c : lang (Chr c) [c]
| LClass (p : N -> bool) c : p c = true -> lang (Class p) [c]
| LSeq a b u v : lang a u -> lang b v -> lang (Seq a b) (u ++ v)
| LOptNone a : lang (Opt a) []
| LOptSome a u : lang a u -> lang (Opt a) u
| LStar (p : N -> bool) g w : Forall (fun c => p c = true) w -> lang (Star p g) w
| LGroup a u : lang a u -> lang (Group a) u.

Fixpoint nullable (r : regex) : bool :=
  match r with
  | Eps => true
  | Chr _ => false
  | Class _ => false
  | Seq a b => nullable a && nullable b
  | Opt _ => true
  | Star _ _ => true
  | Group a => nullable a
  end.

End Regex.
Import Regex.

(** ** Exceptions, the filesystem and the protocol envelopes *)

Module Runtime.

(** A thrown value: an [Error] object with its message, or any other
    value with its [String (value)]. *)
Inductive thrown :=
| ErrorObject (message : jsstring)
| OtherValue (asString : jsstring).

(** [error instanceof Error ? error.message : String (error)] *)
Definition errorText (error : thrown) : jsstring :=
  match error with
  | ErrorObject message => message
  | OtherValue asString => asString
  end.

Inductive result (A : Type) :=
| Ok (a : A)
| Throw (e : thrown).
Arguments Ok {A} a.
Arguments Throw {A} e.

Definition ret {A} (a : A) : result A := Ok a.

Definition bind {A B} (m : result A) (f : A -> result B) : result B :=
  match m with
  | Ok a => f a
  | Throw e => Throw e
  end.

(** [try { body } catch (error) { handler }] *)
Definition tryCatch {A} (body : result A) (handler : thrown -> result A) : result A :=
  match body with
  | Ok a => Ok a
  | Throw e => handler e
  end.

(** [fs/promises], as far as the handlers use it.  Both calls either
    resolve or reject; an awaited rejection is a throw. *)
Record FileSystem := {
  access : jsstring -> result unit;
  readFile : jsstring -> result jsstring
}.

(** A template variable of a resource URI: a string or an array of
    strings. *)
Inductive variable :=
| VString (s : jsstring)
| VArray (l : list jsstring).

(** [String (value)] *)
Definition toString (v : variable) : jsstring :=
  match v with
  | VString s => s
  | VArray l => join (lit ",") l
  end.

Record URL := { href : jsstring }.

End Runtime.
Import Runtime.

Declare Scope js_scope.
Delimit Scope js_scope with js.
Notation "x <- m ;; k" := (bind m (fun x => k))
  (at level 61, m at next level, right associativity) : js_scope.
Notation "a >> b" := (Seq a b) (at level 60, right associativity) : js_scope.
Open Scope js_scope.

Module Resource.
Record Content := { uri : jsstring; text : jsstring }.
Record Output := { contents : list Content }.
End Resource.

Module Tool.
Record Content := { type : jsstring; text : jsstring }.
Record Output := { content : list Content; isError : option bool }.

(** [{ content: [{ type: "text", text }] }] *)
Definition textResult (text : jsstring) : Output :=
  {| content := [{| type := lit "text"; text := text |}]; isError := None |}.

(** [{ content: [{ type: "text", text }], isError: true }] *)
Definition errorResult (text : jsstring) : Output :=
  {| content := [{| type := lit "text"; text := text |}]; isError := Some true |}.
End Tool.

(** The character of a one-character literal. *)
Definition ch (a : ascii) : N := N_of_ascii a.

(** ** The handlers of the server *)

Module Migration.

(** *** Resource [cdk-files] *)

Definition cdkFiles (fs : FileSystem) (uri : URL) (filePath : variable)
  : result Resource.Output :=
  tryCatch
    (let filePathStr :=
       match filePath with
       | VString s => s
       | _ => toString filePath
       end in
     content <- readFile fs filePathStr ;;
     ret {| Resource.contents :=
              [{| Resource.uri := href uri; Resource.text := content |}] |})
    (fun error =>
       ret {| Resource.contents :=
                [{| Resource.uri := href uri;
                    Resource.text := lit "Error reading file: " ++ errorText error |}] |}).

(** *** Tool [analyze-vpc] *)

(** [/new\s+(?:ec2\.)?Vpc\s*\(/g] *)
Definition vpcPattern : regex :=
  str (lit "new") >> Plus space >> Opt (str (lit "ec2.")) >> str (lit "Vpc") >>
  Star space true >> Chr (ch "(").

(** [fullVpcPattern]: the pattern above, then [[^{]*], then capture
    group 1, which is an opening brace, [\s*], the lazy [[\s\S]*?], a
    closing brace and [\s*]; then a closing parenthesis. *)
Definition fullVpcPattern : regex :=
  str (lit "new") >> Plus space >> Opt (str (lit "ec2.")) >> str (lit "Vpc") >>
  Star space true >> Chr (ch "(") >> Star (notChar (ch "{")) true >>
  Group (Chr (ch "{") >> Star space true >> Star anyChar false >> Chr (ch "}") >>
         Star space true) >>
  Chr (ch ")").

Record Analysis := {
  file : jsstring;
  vpcConstructs : nat;
  matches : list jsstring;
  config : option jsstring;
  migrationReady : bool
}.

Definition analysisToJSON (r : Analysis) : json :=
  JObj [(lit "file", JStr (file r));
        (lit "vpcConstructs", JNum (N.of_nat (vpcConstructs r)));
        (lit "matches", JArr (map JStr (matches r)));
        (lit "config", match config r with Some c => JStr c | None => JNull end);
        (lit "migrationReady", JBool (migrationReady r))].

(** [content.match (vpcPattern)]: [null] when nothing matches. *)
Definition matchGlobal (r : regex) (s : jsstring) : option (list jsstring) :=
  match matchAll r s with
  | [] => None
  | l => Some l
  end.

(** The analysis of the text of a file. *)
Definition analyzeContent (filePathStr content : jsstring) : Analysis :=
  let vpcMatches :=
    match matchGlobal vpcPattern content with
    | Some l => l
    | None => []
    end in
  let vpcCount := length vpcMatches in
  let vpcConfig :=
    if 0 <? vpcCount then
      match search fullVpcPattern content with
      | Some (_, [Some group1]) =>
          match group1 with
          | [] => None
          | _ => Some (trim group1)
          end
      | _ => None
      end
    else None in
  {| file := filePathStr;
     vpcConstructs := vpcCount;
     matches := vpcMatches;
     config := vpcConfig;
     migrationReady := 0 <? vpcCount |}.

Definition analyze (fs : FileSystem) (filePath : jsstring) : result Tool.Output :=
  tryCatch
    (let filePathStr := filePath in
     match access fs filePathStr with
     | Throw err =>
         ret (Tool.errorResult
                (lit "Error: File does not exist or is not accessible: " ++ filePathStr))
     | Ok _ =>
         content <- readFile fs filePathStr ;;
         let result := analyzeContent filePathStr content in
         ret (Tool.textResult (stringify (analysisToJSON result)))
     end)
    (fun error =>
       ret (Tool.errorResult (lit "Error analyzing file: " ++ errorText error))).

(** *** Tool [get-vpc-migration-recommendations] *)

Definition subnetRecommendations : list jsstring :=
  [lit "Subnet Configuration: define these subnet as new SubnetV2 with same availability zone, CIDR range and subnet type, pass in vpc as prop";
   lit "IPv4 CIDR block for subnet is defined using prop ipv4CidrBlock";
   lit "Ipv4 CIDR block to defined as new IpCidr(<ipaddress>)"].

Definition ipRecommendation : jsstring :=
  lit "IP Addressing: Migrate to property primaryAddressBlock: IpAddresses.ipv4(cidr)".

Definition fallbackRecommendation : jsstring :=
  lit "Basic VPC Migration: Use the updated VPC constructor with required parameters".

Definition recommendations (cdkCode : jsstring) : list jsstring :=
  let hasSubnets := includes cdkCode (lit "subnet") in
  let hasIpAddresses :=
    includes cdkCode (lit "cidr") || includes cdkCode (lit "ipAddress") in
  let recommendations := [] in
  let recommendations :=
    if hasSubnets then recommendations ++ subnetRecommendations
    else recommendations in
  let recommendations :=
    if hasIpAddresses then recommendations ++ [ipRecommendation]
    else recommendations in
  let recommendations :=
    if length recommendations =? 0 then recommendations ++ [fallbackRecommendation]
    else recommendations in
  recommendations.

Definition recommend (cdkCode : jsstring) : result Tool.Output :=
  ret (Tool.textResult
         (stringify (JObj [(lit "migrationApproaches",
                            JArr (map JStr (recommendations cdkCode)))]))).

(** *** Tool [refactor-vpc] *)

(** [/subnetConfiguration:\s*\[([^\]]+)\]/g] *)
Definition subnetPattern : regex :=
  str (lit "subnetConfiguration:") >> Star space true >> Chr (ch "[") >>
  Group (Plus (notChar (ch "]"))) >> Chr (ch "]").

Definition subnetTemplate : jsstring := lit "new SubnetV2([$1])".

Definition cidrSearch : jsstring := lit "ipAddresses: IpAddresses.cidr('$1')".
Definition cidrTemplate : jsstring := lit "primaryAddressBlock:  IpAddresses.ipv4('$1')".

Definition ipamSearch : jsstring := lit "ipAddresses: IpAddresses.awsIpamAllocation('$1')".
Definition ipamTemplate : jsstring := lit "primaryAddressBlock: Ip4Addresses.ipv4Ipam('$1')".

Definition requiredImports : list jsstring :=
  [lit "import { VpcV2, SubnetV2, IpAddresses } from '@aws-cdk/aws-ec2-alpha';"].

Definition importSection : jsstring := join newline requiredImports.

(** The three rewrites, each behind its test of [migrationApproach]. *)
Definition rewriteSubnets (migrationApproach refactoredCode : jsstring) : jsstring :=
  if includes migrationApproach (lit "Subnet")
  then replaceAll subnetPattern subnetTemplate refactoredCode
  else refactoredCode.

Definition rewriteCidr (migrationApproach refactoredCode : jsstring) : jsstring :=
  if includes migrationApproach (lit "cidr")
  then replaceString refactoredCode cidrSearch cidrTemplate
  else refactoredCode.

Definition rewriteIpam (migrationApproach refactoredCode : jsstring) : jsstring :=
  if includes migrationApproach (lit "IPAM")
  then replaceString refactoredCode ipamSearch ipamTemplate
  else refactoredCode.

(** "Add imports if not already present". *)
Definition addImports (refactoredCode : jsstring) : jsstring :=
  if negb (includes refactoredCode (lit "SubnetConfiguration")) ||
     negb (includes refactoredCode (lit "IpAddresses")) ||
     negb (includes refactoredCode (lit "Ipam"))
  then importSection ++ newline ++ newline ++ refactoredCode
  else refactoredCode.

Definition refactorCode (cdkCode migrationApproach : jsstring) : jsstring :=
  let refactoredCode := cdkCode in
  let refactoredCode := rewriteSubnets migrationApproach refactoredCode in
  let refactoredCode := rewriteCidr migrationApproach refactoredCode in
  let refactoredCode := rewriteIpam migrationApproach refactoredCode in
  addImports refactoredCode.

Definition refactor (cdkCode migrationApproach : jsstring) : result Tool.Output :=
  ret (Tool.textResult (refactorCode cdkCode migrationApproach)).

(** *** Tool [validate-vpc-migration] *)

Record Issue := {
  issue : jsstring;
  severity : jsstring;
  recommendation : jsstring
}.

Definition validationResults (originalCode migratedCode : jsstring) : list Issue :=
  let validationResults := [] in
  let validationResults :=
    if negb (includes migratedCode (lit "VpcV2"))
    then validationResults ++
         [{| issue := lit "Missing VpcV2 construct";
             severity := lit "Error";
             recommendation := lit "Replace Vpc with VpcV2 from @aws-cdk/aws-ec2-alpha" |}]
    else validationResults in
  let validationResults :=
    if includes originalCode (lit "cidrMask") &&
       negb (includes migratedCode (lit "primaryAddressBlock"))
    then validationResults ++
         [{| issue := lit "IP addressing not properly migrated";
             severity := lit "Error";
             recommendation :=
               lit "Use primaryAddressBlock: IpAddresses.ipv4() instead of cidrMask" |}]
    else validationResults in
  let validationResults :=
    if includes originalCode (lit "subnetConfiguration") &&
       negb (includes migratedCode (lit "SubnetV2"))
    then validationResults ++
         [{| issue := lit "Subnet configuration not properly migrated";
             severity := lit "Warning";
             recommendation :=
               lit "Use SubnetV2 constructs instead of subnetConfiguration array" |}]
    else validationResults in
  let validationResults :=
    if includes originalCode (lit "natGateways") &&
       negb (includes migratedCode (lit "addNatGateway"))
    then validationResults ++
         [{| issue := lit "NAT gateway configuration not properly migrated";
             severity := lit "Warning";
             recommendation :=
               lit "Use vpc.addNatGateway() method instead of natGateways property" |}]
    else validationResults in
  validationResults.

Record Validation := {
  status : jsstring;
  issues : list Issue;
  recommendations_ : list jsstring
}.

Definition validation (originalCode migratedCode : jsstring) : Validation :=
  let validationResults := validationResults originalCode migratedCode in
  let status := if length validationResults =? 0 then lit "PASS" else lit "FAIL" in
  {| status := status;
     issues := validationResults;
     recommendations_ :=
       if length validationResults =? 0
       then [lit "Migration successful! Test your infrastructure code to ensure it works as expected."]
       else map (fun r => recommendation r) validationResults |}.

Definition issueToJSON (r : Issue) : json :=
  JObj [(lit "issue", JStr (issue r));
        (lit "severity", JStr (severity r));
        (lit "recommendation", JStr (recommendation r))].

Definition validationToJSON (v : Validation) : json :=
  JObj [(lit "status", JStr (status v));
        (lit "issues", JArr (map issueToJSON (issues v)));
        (lit "recommendations", JArr (map JStr (recommendations_ v)))].

Definition validate (originalCode migratedCode : jsstring) : result Tool.Output :=
  ret (Tool.textResult (stringify (validationToJSON (validation originalCode migratedCode)))).

(** *** Tool [generate-migration-docs] *)

Definition changes (originalCode migratedCode : jsstring) : list jsstring :=
  let changes := [] in
  let changes :=
    if includes originalCode (lit "Vpc") && includes migratedCode (lit "VpcV2")
    then changes ++ [lit "Upgraded from Vpc to VpcV2 construct"]
    else changes in
  let changes :=
    if includes originalCode (lit "cidrMask") &&
       includes migratedCode (lit "primaryAddressBlock")
    then changes ++ [lit "Migrated CIDR configuration to use primaryAddressBlock"]
    else changes in
  let changes :=
    if includes originalCode (lit "subnetConfiguration") &&
       includes migratedCode (lit "SubnetV2")
    then changes ++
         [lit "Replaced subnetConfiguration array with explicit SubnetV2 constructs"]
    else changes in
  let changes :=
    if includes originalCode (lit "natGateways") &&
       includes migratedCode (lit "addNatGateway")
    then changes ++
         [lit "Replaced natGateways property with addNatGateway() method calls"]
    else changes in
  changes.

(** The four fixed parts of the markdown template, around the list of
    changes, the original code and the migrated code. *)
Definition docHead : jsstring :=
  lit "
# VPC Migration Documentation

## Changes Applied

".

Definition docOriginal : jsstring :=
  lit "

## Migration Details

### Original Code
```typescript
".

Definition docMigrated : jsstring :=
  lit "
```

### Migrated Code
```typescript
".

Definition docTail : jsstring :=
  lit "
```

## Testing Recommendations

1. Deploy the migrated infrastructure to a test environment
2. Verify network connectivity between subnets
3. Validate that internet connectivity works as expected
4. Check that any resources depending on the VPC can still connect properly

## References

- [AWS CDK VpcV2 API Reference](https://docs.aws.amazon.com/cdk/api/v2/docs/aws-cdk-lib.aws_ec2.Vpc.html)
- [AWS CDK Migration Guide](https://docs.aws.amazon.com/cdk/v2/guide/migrating-v2.html)
".

Definition documentation (originalCode migratedCode : jsstring) : jsstring :=
  docHead ++
  join newline (map (fun change => lit "- " ++ change) (changes originalCode migratedCode)) ++
  docOriginal ++ originalCode ++ docMigrated ++ migratedCode ++ docTail.

Definition document (originalCode migratedCode : jsstring) : result Tool.Output :=
  ret (Tool.textResult (documentation originalCode migratedCode)).

(** *** The tool registry *)

(** A tool call, after its arguments passed the declared schema. *)
Inductive request :=
| AnalyzeVpc (filePath : jsstring)
| GetVpcMigrationRecommendations (cdkCode : jsstring)
| RefactorVpc (cdkCode migrationApproach : jsstring)
| ValidateVpcMigration (originalCode migratedCode : jsstring)
| GenerateMigrationDocs (originalCode migratedCode : jsstring).

Definition toolName (rq : request) : jsstring :=
  match rq with
  | AnalyzeVpc _ => lit "analyze-vpc"
  | GetVpcMigrationRecommendations _ => lit "get-vpc-migration-recommendations"
  | RefactorVpc _ _ => lit "refactor-vpc"
  | ValidateVpcMigration _ _ => lit "validate-vpc-migration"
  | GenerateMigrationDocs _ _ => lit "generate-migration-docs"
  end.

(** The dispatch to the registered handler.  [fs] is the filesystem as it
    is when the request is handled. *)
Definition handle (fs : FileSystem) (rq : request) : result Tool.Output :=
  match rq with
  | AnalyzeVpc filePath => analyze fs filePath
  | GetVpcMigrationRecommendations cdkCode => recommend cdkCode
  | RefactorVpc cdkCode migrationApproach => refactor cdkCode migrationApproach
  | ValidateVpcMigration originalCode migratedCode => validate originalCode migratedCode
  | GenerateMigrationDocs originalCode migratedCode => document originalCode migratedCode
  end.

(** The handlers that never touch the filesystem. *)
Definition filesystemFree (rq : request) : bool :=
  match rq with
  | GetVpcMigrationRecommendations _ => true
  | ValidateVpcMigration _ _ => true
  | GenerateMigrationDocs _ _ => true
  | _ => false
  end.

End Migration.

(** ** The sibling variant with placeholder results

    The second variant of the server differs in [analyze-vpc] and
    [refactor-vpc]: both build a prompt for an AI service and return
    placeholder data.  Its other handlers are those of [Migration]. *)

Module Placeholder.

(** The analysis prompt, before and after the text of the file. *)
Definition promptHead : jsstring :=
  lit "
      You are an expert AWS CDK code analyzer. Analyze the following TypeScript/JavaScript code and identify all VPC-related constructs and configurations.
      
      Focus on:
      1. VPC constructs (new ec2.Vpc or new Vpc)
      2. VPC imports (Vpc.fromVpcAttributes, Vpc.fromLookup)
      3. Subnet configurations (subnetConfiguration property)
      4. NAT Gateway configurations (natGateways property)
      5. CIDR block configurations (cidr or cidrMask properties)
      6. Availability Zone configurations (maxAzs property)
      7. VPN Gateway configurations (enableVpnGateway method)
      8. VPC Endpoint configurations (addGatewayEndpoint, addInterfaceEndpoint methods)
      
      For each VPC construct found, extract:
      - The construct ID/name
      - The complete configuration object
      - Line number or approximate position in the code
      
      Analyze the complexity of migration to VPC V2:
      - Simple: Basic VPC with minimal configuration
      - Moderate: VPC with multiple subnet types or moderate complexity
      - Complex: VPC with VPN gateways or many VPC endpoints
      
      Format your response as a JSON object with the following structure:
      {
        " ++ dq ++ lit "vpcConstructs" ++ dq ++ lit ": number of VPC constructs found,
        " ++ dq ++ lit "vpcImports" ++ dq ++ lit ": number of VPC imports found,
        " ++ dq ++ lit "totalVpcReferences" ++ dq ++ lit ": total number of VPC references,
        " ++ dq ++ lit "components" ++ dq ++ lit ": {
          " ++ dq ++ lit "subnetConfigurations" ++ dq ++ lit ": count,
          " ++ dq ++ lit "natGateways" ++ dq ++ lit ": count,
          " ++ dq ++ lit "cidrBlocks" ++ dq ++ lit ": count,
          " ++ dq ++ lit "maxAzs" ++ dq ++ lit ": count,
          " ++ dq ++ lit "vpnGateways" ++ dq ++ lit ": count,
          " ++ dq ++ lit "vpcEndpoints" ++ dq ++ lit ": count
        },
        " ++ dq ++ lit "vpcConfigs" ++ dq ++ lit ": [
          {
            " ++ dq ++ lit "constructId" ++ dq ++ lit ": " ++ dq ++ lit "name of the construct" ++ dq ++ lit ",
            " ++ dq ++ lit "configBlock" ++ dq ++ lit ": " ++ dq ++ lit "complete configuration object as string" ++ dq ++ lit ",
            " ++ dq ++ lit "position" ++ dq ++ lit ": approximate position in the code
          }
        ],
        " ++ dq ++ lit "subnetAnalysis" ++ dq ++ lit ": [
          {
            " ++ dq ++ lit "types" ++ dq ++ lit ": [" ++ dq ++ lit "PUBLIC" ++ dq ++ lit ", " ++ dq ++ lit "PRIVATE_WITH_NAT" ++ dq ++ lit ", etc.],
            " ++ dq ++ lit "count" ++ dq ++ lit ": number of subnet configurations
          }
        ],
        " ++ dq ++ lit "migrationComplexity" ++ dq ++ lit ": " ++ dq ++ lit "Simple|Moderate|Complex" ++ dq ++ lit ",
        " ++ dq ++ lit "migrationReady" ++ dq ++ lit ": boolean indicating if migration is possible
      }
      
      Here's the code to analyze:
      
      ".

Definition promptTail : jsstring :=
  lit "
      ".

Definition migrationGuide : jsstring :=
  lit "/Users/shikagg/migration_mcp/vpc-migration-guide.md".

Record PlaceholderResult := {
  file : jsstring;
  analysisMethod : jsstring;
  prompt : jsstring;
  migrationGuide_ : jsstring;
  note : jsstring
}.

Definition placeholderToJSON (r : PlaceholderResult) : json :=
  JObj [(lit "file", JStr (file r));
        (lit "analysisMethod", JStr (analysisMethod r));
        (lit "prompt", JStr (prompt r));
        (lit "migrationGuide", JStr (migrationGuide_ r));
        (lit "note", JStr (note r))].

Definition analyze (fs : FileSystem) (filePath : jsstring) : result Tool.Output :=
  tryCatch
    (let filePathStr := filePath in
     match access fs filePathStr with
     | Throw err =>
         ret (Tool.errorResult
                (lit "Error: File does not exist or is not accessible: " ++ filePathStr))
     | Ok _ =>
         content <- readFile fs filePathStr ;;
         let analysisPrompt := promptHead ++ content ++ promptTail in
         let placeholderResult :=
           {| file := filePathStr;
              analysisMethod := lit "AI-based analysis";
              prompt := substring0 500 analysisPrompt ++ lit "...";
              migrationGuide_ := migrationGuide;
              note := lit "This is a placeholder. In a real implementation, this would be replaced with the AI service response." |} in
         ret (Tool.textResult (stringify (placeholderToJSON placeholderResult)))
     end)
    (fun error =>
       ret (Tool.errorResult (lit "Error analyzing file: " ++ errorText error))).

Definition importLine : jsstring :=
  lit "import { VpcV2, SubnetV2, IpAddresses, IpCidr, RouteTable } from '@aws-cdk/aws-ec2-alpha';".

Definition placeholderComment : jsstring :=
  lit "// This is a placeholder for the AI-refactored code" ++ newline ++
  lit "// In a real implementation, this would be replaced with the AI service response" ++
  newline ++ newline.

(** "Add import statements". *)
Definition addImports (placeholderRefactoredCode : jsstring) : jsstring :=
  if negb (includes placeholderRefactoredCode (lit "@aws-cdk/aws-ec2-alpha"))
  then importLine ++ newline ++ newline ++ placeholderRefactoredCode
  else placeholderRefactoredCode.

Definition refactorCode (cdkCode : jsstring) : jsstring :=
  let placeholderRefactoredCode := cdkCode in
  let placeholderRefactoredCode := addImports placeholderRefactoredCode in
  placeholderComment ++ placeholderRefactoredCode.

(** The migration guide is read, and replaced by a fixed text when the
    read fails; the prompt made of it is only measured for a diagnostic
    line, so it has no part in the result. *)
Definition refactor (fs : FileSystem) (cdkCode migrationApproach : jsstring)
  : result Tool.Output :=
  tryCatch
    (migrationGuideContent <-
       tryCatch (readFile fs migrationGuide)
                (fun guideErr => ret (lit "Migration guide not available")) ;;
     ret (Tool.textResult (refactorCode cdkCode)))
    (fun error =>
       ret (Tool.errorResult (lit "Error refactoring code: " ++ errorText error))).

End Placeholder.

(** ** The handlers with their arrays in the store

    A handler fills an array that it creates: [const recommendations =
    []] and then [recommendations.push (...)].  Here the arrays live in a
    store that outlasts the call, next to the filesystem, and a handler
    is a program that may read and change both.  Nothing in this model
    makes a handler forget what earlier requests left in the store. *)

Module Heap.

(** The state a request finds: the filesystem, and every array created so
    far, the reference of an array being its position. *)
Record World := {
  files : FileSystem;
  arrays : list (list json)
}.

Definition M (A : Type) : Type := World -> result A * World.

Definition retM {A : Type} (a : A) : M A := fun w => (Ok a, w).

Definition bindM {A B : Type} (m : M A) (f : A -> M B) : M B :=
  fun w =>
    match m w with
    | (Ok a, w') => f a w'
    | (Throw e, w') => (Throw e, w')
    end.

(** [[]]: a new, empty array. *)
Definition newArray : M nat :=
  fun w => (Ok (length (arrays w)),
            {| files := files w; arrays := arrays w ++ [[]] |}).

Fixpoint pushAt (r : nat) (v : json) (h : list (list json)) : list (list json) :=
  match h with
  | [] => []
  | a :: h' =>
      match r with
      | O => (a ++ [v]) :: h'
      | S r' => a :: pushAt r' v h'
      end
  end.

(** [array.push (v)] *)
Definition push (r : nat) (v : json) : M unit :=
  fun w => (Ok tt, {| files := files w; arrays := pushAt r v (arrays w) |}).

(** The elements of an array, as [map], [join] and [JSON.stringify] read
    them. *)
Definition getArray (r : nat) : M (list json) :=
  fun w => (Ok (nth r (arrays w) []), w).

(** [array.length] *)
Definition lengthOf (r : nat) : M nat :=
  fun w => (Ok (length (nth r (arrays w) [])), w).

(** [if (b) { m }] *)
Definition when (b : bool) (m : M unit) : M unit :=
  if b then m else retM tt.

(** A call that only reads the filesystem. *)
Definition withFiles {A : Type} (f : FileSystem -> result A) : M A :=
  fun w => (f (files w), w).

Definition sameKey (a b : jsstring) : bool := startsWith a b && startsWith b a.

(** [object.name]; a missing property is [undefined], which an array
    serializes as [null]. *)
Definition property (v : json) (name : jsstring) : json :=
  match v with
  | JObj l =>
      match find (fun kv => sameKey (fst kv) name) l with
      | Some kv => snd kv
      | None => JNull
      end
  | _ => JNull
  end.

(** [String (v)], as a template literal reads a value; an array joins
    its elements with commas, [null] being empty there. *)
Fixpoint asString (v : json) : jsstring :=
  match v with
  | JNull => lit "null"
  | JBool true => lit "true"
  | JBool false => lit "false"
  | JNum n => numberToString n
  | JStr s => s
  | JArr l =>
      join (lit ",")
           (map (fun x => match x with JNull => [] | _ => asString x end) l)
  | JObj _ => lit "[object Object]"
  end.

End Heap.
Import Heap.

Notation "x <~ m ;; k" := (bindM m (fun x => k))
  (at level 61, m at next level, right associativity) : js_scope.

Module Stateful.

(** [get-vpc-migration-recommendations] *)
Definition recommend (cdkCode : jsstring) : M Tool.Output :=
  let hasSubnets := includes cdkCode (lit "subnet") in
  let hasIpAddresses :=
    includes cdkCode (lit "cidr") || includes cdkCode (lit "ipAddress") in
  recommendations <~ newArray ;;
  _ <~ when hasSubnets
    (_ <~ push recommendations (JStr (lit "Subnet Configuration: define these subnet as new SubnetV2 with same availability zone, CIDR range and subnet type, pass in vpc as prop")) ;;
     _ <~ push recommendations (JStr (lit "IPv4 CIDR block for subnet is defined using prop ipv4CidrBlock")) ;;
     push recommendations (JStr (lit "Ipv4 CIDR block to defined as new IpCidr(<ipaddress>)"))) ;;
  _ <~ when hasIpAddresses
    (push recommendations (JStr (lit "IP Addressing: Migrate to property primaryAddressBlock: IpAddresses.ipv4(cidr)"))) ;;
  n <~ lengthOf recommendations ;;
  _ <~ when (n =? 0)
    (push recommendations (JStr (lit "Basic VPC Migration: Use the updated VPC constructor with required parameters"))) ;;
  migrationApproaches <~ getArray recommendations ;;
  retM (Tool.textResult
          (stringify (JObj [(lit "migrationApproaches", JArr migrationApproaches)]))).

(** [validate-vpc-migration] *)
Definition validate (originalCode migratedCode : jsstring) : M Tool.Output :=
  validationResults <~ newArray ;;
  _ <~ when (negb (includes migratedCode (lit "VpcV2")))
    (push validationResults
       (JObj [(lit "issue", JStr (lit "Missing VpcV2 construct"));
              (lit "severity", JStr (lit "Error"));
              (lit "recommendation",
               JStr (lit "Replace Vpc with VpcV2 from @aws-cdk/aws-ec2-alpha"))])) ;;
  _ <~ when (includes originalCode (lit "cidrMask") &&
            negb (includes migratedCode (lit "primaryAddressBlock")))
    (push validationResults
       (JObj [(lit "issue", JStr (lit "IP addressing not properly migrated"));
              (lit "severity", JStr (lit "Error"));
              (lit "recommendation",
               JStr (lit "Use primaryAddressBlock: IpAddresses.ipv4() instead of cidrMask"))])) ;;
  _ <~ when (includes originalCode (lit "subnetConfiguration") &&
            negb (includes migratedCode (lit "SubnetV2")))
    (push validationResults
       (JObj [(lit "issue", JStr (lit "Subnet configuration not properly migrated"));
              (lit "severity", JStr (lit "Warning"));
              (lit "recommendation",
               JStr (lit "Use SubnetV2 constructs instead of subnetConfiguration array"))])) ;;
  _ <~ when (includes originalCode (lit "natGateways") &&
            negb (includes migratedCode (lit "addNatGateway")))
    (push validationResults
       (JObj [(lit "issue", JStr (lit "NAT gateway configuration not properly migrated"));
              (lit "severity", JStr (lit "Warning"));
              (lit "recommendation",
               JStr (lit "Use vpc.addNatGateway() method instead of natGateways property"))])) ;;
  n <~ lengthOf validationResults ;;
  let status := if n =? 0 then lit "PASS" else lit "FAIL" in
  issues <~ getArray validationResults ;;
  n' <~ lengthOf validationResults ;;
  recommendations <~
    (if n' =? 0
     then retM [JStr (lit "Migration successful! Test your infrastructure code to ensure it works as expected.")]
     else results <~ getArray validationResults ;;
          retM (map (fun r => property r (lit "recommendation")) results)) ;;
  retM (Tool.textResult
          (stringify (JObj [(lit "status", JStr status);
                            (lit "issues", JArr issues);
                            (lit "recommendations", JArr recommendations)]))).

(** [generate-migration-docs] *)
Definition document (originalCode migratedCode : jsstring) : M Tool.Output :=
  changes <~ newArray ;;
  _ <~ when (includes originalCode (lit "Vpc") && includes migratedCode (lit "VpcV2"))
    (push changes (JStr (lit "Upgraded from Vpc to VpcV2 construct"))) ;;
  _ <~ when (includes originalCode (lit "cidrMask") &&
            includes migratedCode (lit "primaryAddressBlock"))
    (push changes (JStr (lit "Migrated CIDR configuration to use primaryAddressBlock"))) ;;
  _ <~ when (includes originalCode (lit "subnetConfiguration") &&
            includes migratedCode (lit "SubnetV2"))
    (push changes
       (JStr (lit "Replaced subnetConfiguration array with explicit SubnetV2 constructs"))) ;;
  _ <~ when (includes originalCode (lit "natGateways") &&
            includes migratedCode (lit "addNatGateway"))
    (push changes
       (JStr (lit "Replaced natGateways property with addNatGateway() method calls"))) ;;
  listed <~ getArray changes ;;
  let documentation :=
    Migration.docHead ++
    join newline (map (fun change => lit "- " ++ asString change) listed) ++
    Migration.docOriginal ++ originalCode ++ Migration.docMigrated ++ migratedCode ++
    Migration.docTail in
  retM (Tool.textResult documentation).

(** The dispatch to the registered handler, in the world the request
    finds.  [analyze-vpc] only reads the filesystem and [refactor-vpc]
    reads nothing; neither fills an array. *)
Definition handle (rq : Migration.request) : M Tool.Output :=
  match rq with
  | Migration.AnalyzeVpc filePath =>
      withFiles (fun fs => Migration.analyze fs filePath)
  | Migration.GetVpcMigrationRecommendations cdkCode => recommend cdkCode
  | Migration.RefactorVpc cdkCode migrationApproach =>
      withFiles (fun _ => Migration.refactor cdkCode migrationApproach)
  | Migration.ValidateVpcMigration originalCode migratedCode =>
      validate originalCode migratedCode
  | Migration.GenerateMigrationDocs originalCode migratedCode =>
      document originalCode migratedCode
  end.

(** A run of the server from the store [store]: the requests in the order
    of their delivery, each with the filesystem of its moment (other
    programs may change the files between two requests), and each
    starting from the store the request before it left. *)
Fixpoint serve (store : list (list json)) (requests : list (FileSystem * Migration.request))
  : list (result Tool.Output) :=
  match requests with
  | [] => []
  | (fs, rq) :: requests' =>
      let (out, w) := handle rq {| files := fs; arrays := store |} in
      out :: serve (arrays w) requests'
  end.

End Stateful.

Import Migration.

(** * Properties *)

(** ** Vocabulary *)

(** [sub] occurs in [s] as a contiguous run. *)
Definition occurs (sub s : jsstring) : Prop :=
  exists before after, s = before ++ sub ++ after.

(** Some contiguous part of [s] is a word of [r]. *)
Definition hasMatch (r : regex) (s : jsstring) : Prop :=
  exists before w after, s = before ++ w ++ after /\ lang r w.

(** A fenced code block of the template, around [code]. *)
Definition codeFence (code : jsstring) : jsstring :=
  lit "```typescript" ++ newline ++ code ++ newline ++ lit "```".

(** The end of the template: the testing checklist and the reference
    links. *)
Definition testingAndReferences : jsstring :=
  newline ++ newline ++ lit "## Testing Recommendations" ++ newline ++ newline ++
  lit "1. Deploy the migrated infrastructure to a test environment" ++ newline ++
  lit "2. Verify network connectivity between subnets" ++ newline ++
  lit "3. Validate that internet connectivity works as expected" ++ newline ++
  lit "4. Check that any resources depending on the VPC can still connect properly" ++
  newline ++ newline ++ lit "## References" ++ newline ++ newline ++
  lit "- [AWS CDK VpcV2 API Reference](https://docs.aws.amazon.com/cdk/api/v2/docs/aws-cdk-lib.aws_ec2.Vpc.html)" ++
  newline ++
  lit "- [AWS CDK Migration Guide](https://docs.aws.amazon.com/cdk/v2/guide/migrating-v2.html)" ++
  newline.

(** A filesystem with two files; every other path is missing. *)
Definition sameString (a b : jsstring) : bool := startsWith a b && startsWith b a.

Definition stackPath : jsstring := lit "/app/lib/network-stack.ts".
Definition stackSource : jsstring := lit "new Vpc(this, 'X', { cidr: '10.0.0.0/16' })".

Definition appPath : jsstring := lit "/app/bin/app.ts".
Definition appSource : jsstring := lit "const app = new cdk.App(); // no Vpc (yet)".

Definition missing (call path : jsstring) : thrown :=
  ErrorObject (lit "ENOENT: no such file or directory, " ++ call ++ lit " '" ++
               path ++ lit "'").

Definition exampleFs : FileSystem :=
  {| access := fun path =>
       if sameString path stackPath || sameString path appPath then Ok tt
       else Throw (missing (lit "access") path);
     readFile := fun path =>
       if sameString path stackPath then Ok stackSource
       else if sameString path appPath then Ok appSource
       else Throw (missing (lit "open") path) |}.

Definition emptyFs : FileSystem :=
  {| access := fun path => Throw (missing (lit "access") path);
     readFile := fun path => Throw (missing (lit "open") path) |}.

(** The matches of a global search lie in the text one after the other:
    [Parts s ms] splits [s] into a gap, the first match, a gap, the
    second match, and so on. *)
Inductive Parts : jsstring -> list jsstring -> Prop :=
| Parts_nil s : Parts s []
| Parts_cons gap m s ms : Parts s ms -> Parts (gap ++ m ++ s) (m :: ms).

(** The patterns inside the capture groups of a pattern. *)
Fixpoint groups (r : regex) : list regex :=
  match r with
  | Seq a b => groups a ++ groups b
  | Opt a => groups a
  | Group a => [a]
  | _ => []
  end.

(** Some issue of the list has the title [title]. *)
Definition hasIssue (title : jsstring) (l : list Issue) : Prop :=
  exists r, In r l /\ issue r = title.

(** The import statement and the blank line after it. *)
Definition importBlock : jsstring := importSection ++ newline ++ newline.

(** A filesystem whose one path is a directory: it is accessible and
    cannot be read as a file. *)
Definition libPath : jsstring := lit "/app/lib".

Definition directoryFs : FileSystem :=
  {| access := fun path =>
       if sameString path libPath then Ok tt
       else Throw (missing (lit "access") path);
     readFile := fun path =>
       if sameString path libPath
       then Throw (ErrorObject (lit "EISDIR: illegal operation on a directory, read"))
       else Throw (missing (lit "open") path) |}.

(** ** The model on small inputs *)

Example stringify_nested :
  stringify (JObj [(lit "a", JArr [JNum 12; JNull]); (lit "b", JArr [])]) =
    lit "{" ++ newline ++
    lit "  " ++ dq ++ lit "a" ++ dq ++ lit ": [" ++ newline ++
    lit "    12," ++ newline ++
    lit "    null" ++ newline ++
    lit "  ]," ++ newline ++
    lit "  " ++ dq ++ lit "b" ++ dq ++ lit ": []" ++ newline ++
    lit "}".
Proof. reflexivity. Qed.

Example stringify_escapes :
  stringify (JStr (lit "a\b" ++ dq ++ newline)) =
    dq ++ lit "a\\b\" ++ dq ++ lit "\n" ++ dq.
Proof. reflexivity. Qed.

Example matchAll_constructs :
  matchAll vpcPattern
           (lit "a = new  ec2.Vpc (x); b = new Vpc(y); c = new ec2.Vpcs(z); newVpc(") =
    [lit "new  ec2.Vpc ("; lit "new Vpc("].
Proof. reflexivity. Qed.

(** Braces inside the configuration cut the extracted text short. *)
Example config_nested_braces :
  config (analyzeContent [] (lit "new Vpc(this, 'X', { a: f({ b: 1 }), c: 2 })")) =
    Some (lit "{ a: f({ b: 1 }").
Proof. reflexivity. Qed.

Example getSubstitution_patterns :
  getSubstitution (lit "M") (lit "B") (lit "A") [Some (lit "C")]
                  (lit "$$ $& $` $' $1 $2 $01 $00 $10 $") =
    lit "$ M B A C $2 C $00 C0 $".
Proof. reflexivity. Qed.

Example refactor_subnets :
  refactorCode (lit "{ subnetConfiguration: [ a, b ], maxAzs: 2 }") (lit "Subnet") =
    importSection ++ newline ++ newline ++ lit "{ new SubnetV2([ a, b ]), maxAzs: 2 }".
Proof. reflexivity. Qed.

Example recommend_subnet_config :
  recommendations (lit "my subnet config") = subnetRecommendations.
Proof. reflexivity. Qed.

(** ** Substrings *)


Lemma startsWith_spec (s p : jsstring) :
  startsWith s p = true <-> exists q, s = p ++ q.
Proof.
  revert s; induction p as [|c p IH]; intros s; simpl.
  - split; [intros _; now exists s | reflexivity].
  - destruct s as [|d s].
    + split; [discriminate | intros [q H]; discriminate].
    + rewrite andb_true_iff, N.eqb_eq, IH. split.
      * intros [-> [q ->]]. now exists q.
      * intros [q H]. injection H as -> ->. split; [reflexivity | now exists q].
Qed.

Lemma includes_spec (s sub : jsstring) :
  includes s sub = true <-> occurs sub s.
Proof.
  induction s as [|c s IH]; simpl.
  - rewrite orb_false_r, startsWith_spec. split.
    + intros [q H]. now exists [], q.
    + intros [[|x b] [a H]]; [now exists a | discriminate].
  - rewrite orb_true_iff, startsWith_spec, IH. split.
    + intros [[q H] | [b [a H]]].
      * now exists [], q.
      * exists (c :: b), a. now rewrite H.
    + intros [[|x b] [a H]].
      * left. now exists a.
      * right. injection H as _ H. now exists b, a.
Qed.

Lemma includes_false (s sub : jsstring) :
  includes s sub = false <-> ~ occurs sub s.
Proof.
  rewrite <- includes_spec. destruct (includes s sub); split; congruence.
Qed.

Lemma occurs_refl (s : jsstring) : occurs s s.
Proof. exists [], []. now rewrite app_nil_r. Qed.

Lemma occurs_app_l (sub a b : jsstring) : occurs sub a -> occurs sub (a ++ b).
Proof.
  intros [p [q ->]]. exists p, (q ++ b). now rewrite <- !app_assoc.
Qed.

Lemma occurs_app_r (sub a b : jsstring) : occurs sub b -> occurs sub (a ++ b).
Proof.
  intros [p [q ->]]. exists (a ++ p), q. now rewrite <- !app_assoc.
Qed.

Lemma occurs_trans (a b c : jsstring) : occurs a b -> occurs b c -> occurs a c.
Proof.
  intros [p [q ->]] [p' [q' ->]]. exists (p' ++ p), (q ++ q').
  now rewrite <- !app_assoc.
Qed.

(** A character that is not in [sub] separates its occurrences. *)
Lemma occurs_split (sub a b : jsstring) (c : N) :
  ~ In c sub -> occurs sub (a ++ c :: b) -> occurs sub a \/ occurs sub b.
Proof.
  intros Hc [p [q H]].
  apply app_eq_app in H as [l [[-> H] | [-> H]]].
  - apply app_eq_app in H as [l' [[-> H] | [-> H]]].
    + destruct l' as [|x l'].
      * left. exists p, []. now rewrite !app_nil_r.
      * injection H as <- _. exfalso. apply Hc, in_or_app. right. now left.
    + left. exists p, l'. reflexivity.
  - destruct l as [|x l].
    + simpl in H. destruct sub as [|x sub].
      * right. exists [], b. reflexivity.
      * injection H as <- _. exfalso. apply Hc. now left.
    + injection H as _ ->. right. now exists l, q.
Qed.

(** An occurrence cannot end in a text that lacks its last character. *)
Lemma occurs_last (sub a b : jsstring) (z : N) :
  ~ In z b -> occurs (sub ++ [z]) (a ++ b) -> occurs (sub ++ [z]) a.
Proof.
  intros Hz [p [q H]].
  apply app_eq_app in H as [l [[-> H] | [-> H]]].
  - apply app_eq_app in H as [l' [[H1 H] | [-> H]]].
    + destruct l' as [|x l'].
      * rewrite app_nil_r in H1. subst l. exists p, []. now rewrite !app_nil_r.
      * exfalso. apply Hz. rewrite H.
        assert (Hin : In z (x :: l')).
        { destruct (@exists_last _ (x :: l') ltac:(discriminate)) as [m [y E]].
          rewrite E in H1. rewrite app_assoc in H1.
          apply app_inj_tail in H1 as [_ ->]. rewrite E.
          apply in_or_app. right. now left. }
        apply in_or_app. now left.
    + exists p, l'. reflexivity.
  - exfalso. apply Hz. rewrite H. apply in_or_app. right.
    apply in_or_app. left. apply in_or_app. right. now left.
Qed.

(** An occurrence cannot start at a character other than its first. *)
Lemma occurs_head (sub b : jsstring) (h c : N) :
  c <> h -> occurs (h :: sub) (c :: b) -> occurs (h :: sub) b.
Proof.
  intros Hc [[|x p] [q H]].
  - injection H as H _. congruence.
  - injection H as _ ->. now exists p, q.
Qed.

Lemma includes_app_r (a b sub : jsstring) :
  includes b sub = true -> includes (a ++ b) sub = true.
Proof. rewrite !includes_spec. apply occurs_app_r. Qed.

Lemma includes_app_l (a b sub : jsstring) :
  includes a sub = true -> includes (a ++ b) sub = true.
Proof. rewrite !includes_spec. apply occurs_app_l. Qed.

(** ** The matcher finds only words of the pattern *)

Lemma consumed_app (w rest : jsstring) : consumed (w ++ rest) rest = w.
Proof.
  unfold consumed. rewrite length_app, Nat.add_sub.
  induction w as [|c w IH]; simpl; [reflexivity | now rewrite IH].
Qed.

Lemma star_sound (p : N -> bool) (g : bool) (k : cont) (cap : option jsstring)
      (s : jsstring) (res : mstate) :
  star p g k cap s = Some res ->
  exists w rest,
    s = w ++ rest /\ Forall (fun c => p c = true) w /\ k rest cap = Some res.
Proof.
  induction s as [|c s IH]; simpl; intros H.
  - exists [], []. auto.
  - assert (Hstop : k (c :: s) cap = Some res ->
                    exists w rest, c :: s = w ++ rest /\
                                   Forall (fun c => p c = true) w /\
                                   k rest cap = Some res).
    { intros Hk. exists [], (c :: s). auto. }
    assert (Hstep : p c = true -> star p g k cap s = Some res ->
                    exists w rest, c :: s = w ++ rest /\
                                   Forall (fun c => p c = true) w /\
                                   k rest cap = Some res).
    { intros Hp Hs. destruct (IH Hs) as [w [rest [-> [Hw Hk]]]].
      exists (c :: w), rest. auto. }
    destruct g.
    + destruct (p c) eqn:Hp; [|auto].
      destruct (star p true k cap s) eqn:Hs; simpl in H; [|auto].
      injection H as ->. auto.
    + destruct (k (c :: s) cap) eqn:Hk; simpl in H.
      * injection H as ->. auto.
      * destruct (p c) eqn:Hp; [auto | discriminate].
Qed.

Lemma run_sound (r : regex) :
  forall (s : jsstring) (cap : option jsstring) (k : cont) (res : mstate),
    run r s cap k = Some res ->
    exists w rest cap',
      s = w ++ rest /\ lang r w /\ k rest cap' = Some res /\
      (cap' = cap \/ exists x, cap' = Some x /\ occurs x w).
Proof.
  induction r as [|c|p|a IHa b IHb|a IHa|p g|a IHa]; simpl; intros s cap k res H.
  - exists [], s, cap. repeat split; auto using lang.
  - destruct s as [|d s]; [discriminate|].
    destruct (N.eqb_spec d c) as [->|]; [|discriminate].
    exists [c], s, cap. repeat split; auto using lang.
  - destruct s as [|d s]; [discriminate|].
    destruct (p d) eqn:Hp; [|discriminate].
    exists [d], s, cap. repeat split; auto using lang.
  - apply IHa in H as [u [s1 [cap1 [-> [Hu [H Hcap1]]]]]].
    apply IHb in H as [v [s2 [cap2 [-> [Hv [H Hcap2]]]]]].
    exists (u ++ v), s2, cap2. rewrite app_assoc. repeat split; auto using lang.
    destruct Hcap2 as [-> | [x [-> Hx]]].
    + destruct Hcap1 as [-> | [x [-> Hx]]]; [now left | right].
      exists x. split; [reflexivity | now apply occurs_app_l].
    + right. exists x. split; [reflexivity | now apply occurs_app_r].
  - destruct (run a s cap k) eqn:Ha; simpl in H.
    + injection H as ->. apply IHa in Ha as [u [s1 [cap1 [-> [Hu [H Hcap1]]]]]].
      exists u, s1, cap1. repeat split; auto using lang.
    + exists [], s, cap. repeat split; auto using lang.
  - apply star_sound in H as [w [rest [-> [Hw H]]]].
    exists w, rest, cap. repeat split; auto using lang.
  - apply IHa in H as [u [s1 [cap1 [-> [Hu [H _]]]]]].
    rewrite consumed_app in H.
    exists u, s1, (Some u). repeat split; auto using lang.
    right. exists u. split; [reflexivity | apply occurs_refl].
Qed.

Lemma exec_sound (r : regex) (s rest : jsstring) (cap : option jsstring) :
  exec r s = Some (rest, cap) ->
  exists w, s = w ++ rest /\ lang r w /\
            (cap = None \/ exists x, cap = Some x /\ occurs x w).
Proof.
  unfold exec. intros H.
  apply run_sound in H as [w [rest' [cap' [-> [Hw [H Hcap]]]]]].
  injection H as -> ->. now exists w.
Qed.

Lemma lang_nullable (r : regex) (w : jsstring) :
  lang r w -> w = [] -> nullable r = true.
Proof.
  induction 1; simpl; intros E; try discriminate; auto.
  apply app_eq_nil in E as [-> ->]. now rewrite IHlang1, IHlang2.
Qed.


Lemma exec_hasMatch (r : regex) (before s : jsstring) (st : mstate) :
  exec r s = Some st -> hasMatch r (before ++ s).
Proof.
  destruct st as [rest cap]. intros H.
  apply exec_sound in H as [w [-> [Hw _]]]. now exists before, w, rest.
Qed.

Lemma matchAllFrom_none (r : regex) (s : jsstring) :
  forall (before : jsstring) (skip : nat),
    ~ hasMatch r (before ++ s) -> matchAllFrom r s skip = [].
Proof.
  induction s as [|c s IH]; intros before skip Hno; simpl.
  - destruct skip; [|reflexivity].
    destruct (exec r []) eqn:He; [|reflexivity].
    exfalso. apply Hno. eapply exec_hasMatch, He.
  - assert (Hs : forall n, matchAllFrom r s n = []).
    { intros n. apply (IH (before ++ [c])). now rewrite <- app_assoc. }
    destruct skip; [|apply Hs].
    destruct (exec r (c :: s)) as [[rest cap]|] eqn:He; [|apply Hs].
    exfalso. apply Hno. eapply exec_hasMatch, He.
Qed.

Lemma matchAll_none (r : regex) (s : jsstring) :
  ~ hasMatch r s -> matchAll r s = [].
Proof. intros H. now apply (matchAllFrom_none r s []). Qed.

(** ** validate-vpc-migration *)

Lemma validationResults_missing (originalCode migratedCode : jsstring) :
  includes migratedCode (lit "VpcV2") = false ->
  exists rest,
    validationResults originalCode migratedCode =
    {| issue := lit "Missing VpcV2 construct";
       severity := lit "Error";
       recommendation := lit "Replace Vpc with VpcV2 from @aws-cdk/aws-ec2-alpha" |} :: rest.
Proof.
  intros H. unfold validationResults. rewrite H.
  destruct (includes originalCode (lit "cidrMask") &&
            negb (includes migratedCode (lit "primaryAddressBlock")));
    destruct (includes originalCode (lit "subnetConfiguration") &&
              negb (includes migratedCode (lit "SubnetV2")));
    destruct (includes originalCode (lit "natGateways") &&
              negb (includes migratedCode (lit "addNatGateway")));
    eexists; reflexivity.
Qed.

(** C1.  The status of a validation is "PASS" exactly when no issue was
    recorded, and "FAIL" otherwise; when the migrated code lacks the text
    "VpcV2" the status is "FAIL" and the issues contain one whose [issue]
    is "Missing VpcV2 construct".  The tool returns the validation as
    indented JSON and never throws. *)
Theorem validate_pass_iff_no_issue (originalCode migratedCode : jsstring) :
  validate originalCode migratedCode =
    Ok (Tool.textResult
          (stringify (validationToJSON (validation originalCode migratedCode)))) /\
  (status (validation originalCode migratedCode) = lit "PASS" <->
   issues (validation originalCode migratedCode) = []) /\
  (status (validation originalCode migratedCode) = lit "FAIL" <->
   issues (validation originalCode migratedCode) <> []) /\
  (includes migratedCode (lit "VpcV2") = false ->
   status (validation originalCode migratedCode) = lit "FAIL" /\
   exists r, In r (issues (validation originalCode migratedCode)) /\
             issue r = lit "Missing VpcV2 construct").
Proof.
  split; [reflexivity|]. unfold validation. simpl status. simpl issues.
  split; [|split].
  - destruct (validationResults originalCode migratedCode); simpl.
    + split; reflexivity.
    + split; discriminate.
  - destruct (validationResults originalCode migratedCode); simpl.
    + split; [discriminate | congruence].
    + split; [discriminate | reflexivity].
  - intros H.
    destruct (validationResults_missing originalCode migratedCode H) as [rest ->].
    split; [reflexivity|]. eexists. split; [now left | reflexivity].
Qed.

Lemma validate_pass_iff_no_issue_witness :
  includes (lit "new Vpc(this, 'Net', { natGateways: 1 })") (lit "VpcV2") = false /\
  status (validation (lit "new ec2.Vpc(this, 'Net', { natGateways: 1 })")
                     (lit "new Vpc(this, 'Net', { natGateways: 1 })")) = lit "FAIL".
Proof.
  split; [reflexivity|].
  apply (validate_pass_iff_no_issue
           (lit "new ec2.Vpc(this, 'Net', { natGateways: 1 })")
           (lit "new Vpc(this, 'Net', { natGateways: 1 })")).
  reflexivity.
Defined.

(** ** get-vpc-migration-recommendations *)

Lemma recommendations_cases (cdkCode : jsstring) :
  recommendations cdkCode =
    match includes cdkCode (lit "subnet"),
          includes cdkCode (lit "cidr") || includes cdkCode (lit "ipAddress") with
    | true, true => subnetRecommendations ++ [ipRecommendation]
    | true, false => subnetRecommendations
    | false, true => [ipRecommendation]
    | false, false => [fallbackRecommendation]
    end.
Proof.
  unfold recommendations.
  destruct (includes cdkCode (lit "subnet"));
    destruct (includes cdkCode (lit "cidr") || includes cdkCode (lit "ipAddress"));
    reflexivity.
Qed.

Lemma ip_not_subnet : ~ In ipRecommendation subnetRecommendations.
Proof. simpl. intuition discriminate. Qed.

Lemma subnet_not_single (x : jsstring) : ~ incl subnetRecommendations [x].
Proof.
  intros H.
  assert (H1 := H _ (or_introl eq_refl)).
  assert (H2 := H _ (or_intror (or_introl eq_refl))).
  destruct H1 as [-> | []]. destruct H2 as [H2 | []]. discriminate.
Qed.

(** C5.  The recommendations contain the three subnet recommendations
    exactly when the code contains "subnet", the IP-addressing one exactly
    when it contains "cidr" or "ipAddress", and they are the single
    fallback recommendation exactly when none of the three occurs; so
    "my subnet config" gets the subnet recommendations and not the
    IP-addressing one.  The tool returns them as indented JSON and never
    throws. *)
Theorem recommend_by_substrings (cdkCode : jsstring) :
  recommend cdkCode =
    Ok (Tool.textResult
          (stringify (JObj [(lit "migrationApproaches",
                             JArr (map JStr (recommendations cdkCode)))]))) /\
  (incl subnetRecommendations (recommendations cdkCode) <->
   includes cdkCode (lit "subnet") = true) /\
  (In ipRecommendation (recommendations cdkCode) <->
   includes cdkCode (lit "cidr") = true \/ includes cdkCode (lit "ipAddress") = true) /\
  (recommendations cdkCode = [fallbackRecommendation] <->
   includes cdkCode (lit "subnet") = false /\
   includes cdkCode (lit "cidr") = false /\
   includes cdkCode (lit "ipAddress") = false) /\
  recommendations (lit "my subnet config") = subnetRecommendations /\
  incl subnetRecommendations (recommendations (lit "my subnet config")) /\
  ~ In ipRecommendation (recommendations (lit "my subnet config")).
Proof.
  split; [reflexivity|].
  rewrite <- orb_true_iff, <- orb_false_iff, recommendations_cases.
  destruct (includes cdkCode (lit "subnet"));
    destruct (includes cdkCode (lit "cidr") || includes cdkCode (lit "ipAddress")).
  - split; [|split; [|split]].
    + split; [reflexivity | intros _; apply incl_appl, incl_refl].
    + split; [reflexivity | intros _; apply in_or_app; right; now left].
    + split; [discriminate | intros [H _]; discriminate].
    + split; [reflexivity | split; [apply incl_refl | apply ip_not_subnet]].
  - split; [|split; [|split]].
    + split; [reflexivity | intros _; apply incl_refl].
    + split; [intros H; now apply ip_not_subnet in H | discriminate].
    + split; [discriminate | intros [H _]; discriminate].
    + split; [reflexivity | split; [apply incl_refl | apply ip_not_subnet]].
  - split; [|split; [|split]].
    + split; [intros H; now apply subnet_not_single in H | discriminate].
    + split; [reflexivity | intros _; now left].
    + split; [discriminate | intros [_ H]; discriminate].
    + split; [reflexivity | split; [apply incl_refl | apply ip_not_subnet]].
  - split; [|split; [|split]].
    + split; [intros H; now apply subnet_not_single in H | discriminate].
    + split; [intros [H | []]; discriminate | discriminate].
    + split; [split; reflexivity | reflexivity].
    + split; [reflexivity | split; [apply incl_refl | apply ip_not_subnet]].
Qed.




Lemma docOriginal_fence :
  docOriginal =
    (newline ++ newline ++ lit "## Migration Details" ++ newline ++ newline ++
     lit "### Original Code" ++ newline) ++ lit "```typescript" ++ newline.
Proof. reflexivity. Qed.

Lemma docMigrated_fence :
  docMigrated =
    (newline ++ lit "```") ++
    (newline ++ newline ++ lit "### Migrated Code" ++ newline) ++
    lit "```typescript" ++ newline.
Proof. reflexivity. Qed.

Lemma docTail_fence : docTail = (newline ++ lit "```") ++ testingAndReferences.
Proof. reflexivity. Qed.

(** C7.  Whatever the two snippets are, the documentation holds each of
    them unchanged between an opening fence line and a closing fence
    line, the original before the migrated, and ends with the fixed
    testing checklist and reference links.  The tool returns this text
    and never throws. *)
Theorem document_holds_both_snippets (originalCode migratedCode : jsstring) :
  document originalCode migratedCode =
    Ok (Tool.textResult (documentation originalCode migratedCode)) /\
  exists head middle,
    documentation originalCode migratedCode =
      head ++ codeFence originalCode ++ middle ++ codeFence migratedCode ++
      testingAndReferences.
Proof.
  split; [reflexivity|].
  exists (docHead ++
          join newline (map (fun change => lit "- " ++ change)
                            (changes originalCode migratedCode)) ++
          newline ++ newline ++ lit "## Migration Details" ++ newline ++ newline ++
          lit "### Original Code" ++ newline),
         (newline ++ newline ++ lit "### Migrated Code" ++ newline).
  unfold documentation, codeFence.
  rewrite docOriginal_fence, docMigrated_fence, docTail_fence.
  rewrite <- !app_assoc. reflexivity.
Qed.

(** ** Resource cdk-files *)

(** C3.  The resource handler never throws.  When the read succeeds it
    returns one content entry with the text of the file unchanged; when
    the read fails it returns one content entry whose text is "Error
    reading file: " followed by the text of the error. *)
Theorem cdkFiles_never_throws (fs : FileSystem) (uri : URL) (filePath : variable) :
  (exists content,
      readFile fs (toString filePath) = Ok content /\
      cdkFiles fs uri filePath =
        Ok {| Resource.contents :=
                [{| Resource.uri := href uri; Resource.text := content |}] |}) \/
  (exists error,
      readFile fs (toString filePath) = Throw error /\
      cdkFiles fs uri filePath =
        Ok {| Resource.contents :=
                [{| Resource.uri := href uri;
                    Resource.text := lit "Error reading file:" ++
                                     lit " " ++ errorText error |}] |}).
Proof.
  unfold cdkFiles.
  replace (match filePath with VString s => s | VArray _ => toString filePath end)
    with (toString filePath) by now destruct filePath.
  destruct (readFile fs (toString filePath)) as [content | error] eqn:Hread.
  - left. exists content. split; reflexivity.
  - right. exists error. split; reflexivity.
Qed.

(** ** analyze-vpc: the accessibility check *)

(** C6.  When the accessibility check of the path fails, the tool, in
    both variants of the server, does not throw and does not read the
    file: it returns a result flagged [isError: true] whose text names
    the path. *)
Theorem analyze_inaccessible_path (fs : FileSystem) (filePath : jsstring) (err : thrown) :
  access fs filePath = Throw err ->
  Migration.analyze fs filePath =
    Ok {| Tool.content :=
            [{| Tool.type := lit "text";
                Tool.text := lit "Error: File does not exist or is not accessible: " ++
                             filePath |}];
          Tool.isError := Some true |} /\
  Placeholder.analyze fs filePath = Migration.analyze fs filePath.
Proof.
  intros H. unfold Migration.analyze, Placeholder.analyze. rewrite H. split; reflexivity.
Qed.

(** ** The matcher finds a word of the pattern when there is one *)

Lemma orElse_l (x y : option mstate) : x <> None -> orElse x y <> None.
Proof. destruct x; simpl; congruence. Qed.

Lemma orElse_r (x y : option mstate) : y <> None -> orElse x y <> None.
Proof. destruct x; simpl; congruence. Qed.

Lemma star_stop (p : N -> bool) (g : bool) (k : cont) (cap : option jsstring)
      (s : jsstring) :
  k s cap <> None -> star p g k cap s <> None.
Proof.
  intros H. destruct s as [|c s]; simpl; [exact H|].
  destruct g.
  - destruct (p c); [now apply orElse_r | exact H].
  - now apply orElse_l.
Qed.

Lemma star_complete (p : N -> bool) (g : bool) (k : cont) (cap : option jsstring)
      (w rest : jsstring) :
  Forall (fun c => p c = true) w -> k rest cap <> None ->
  star p g k cap (w ++ rest) <> None.
Proof.
  intros Hw Hk. induction Hw as [|c w Hc Hw IH]; simpl.
  - now apply star_stop.
  - rewrite Hc. destruct g; [now apply orElse_l | now apply orElse_r].
Qed.

Lemma run_complete (r : regex) (w : jsstring) :
  lang r w ->
  forall (rest : jsstring) (cap : option jsstring) (k : cont),
    (forall cap', k rest cap' <> None) -> run r (w ++ rest) cap k <> None.
Proof.
  induction 1 as [|c|p c Hc|a b u v Hu IHu Hv IHv|a|a u Hu IHu|p g w Hw|a u Hu IHu];
    intros rest cap k Hk; simpl.
  - apply Hk.
  - rewrite N.eqb_refl. apply Hk.
  - rewrite Hc. apply Hk.
  - rewrite <- app_assoc. apply IHu. intros cap'. now apply IHv.
  - apply orElse_r, Hk.
  - apply orElse_l. now apply IHu.
  - apply star_complete; [exact Hw | apply Hk].
  - apply IHu. intros _. apply Hk.
Qed.

Lemma exec_complete (r : regex) (w rest : jsstring) :
  lang r w -> exec r (w ++ rest) <> None.
Proof.
  intros H. unfold exec. apply run_complete; [exact H | discriminate].
Qed.

Lemma matchAllFrom_complete (r : regex) (before s : jsstring) :
  exec r s <> None -> matchAllFrom r (before ++ s) 0 <> [].
Proof.
  intros H. induction before as [|c before IH]; simpl.
  - destruct s as [|c s]; simpl.
    + destruct (exec r []); [discriminate | congruence].
    + destruct (exec r (c :: s)) as [[rest cap]|]; [discriminate | congruence].
  - destruct (exec r (c :: before ++ s)) as [[rest cap]|]; [discriminate | exact IH].
Qed.

Lemma matchAll_complete (r : regex) (s : jsstring) :
  hasMatch r s -> matchAll r s <> [].
Proof.
  intros [before [w [after [-> Hw]]]].
  apply matchAllFrom_complete. now apply exec_complete.
Qed.

(** [content.match (r)] with the [g] flag has a match exactly when some
    part of the content is a word of [r]. *)
Lemma matchAll_nil_iff (r : regex) (s : jsstring) :
  matchAll r s = [] <-> ~ hasMatch r s.
Proof.
  split.
  - intros H Hm. now apply matchAll_complete in Hm.
  - apply matchAll_none.
Qed.

(** ** analyze-vpc: counting the constructs *)

Lemma analyze_readable (fs : FileSystem) (filePath content : jsstring) :
  access fs filePath = Ok tt ->
  readFile fs filePath = Ok content ->
  Migration.analyze fs filePath =
    Ok (Tool.textResult (stringify (analysisToJSON (analyzeContent filePath content)))).
Proof.
  intros Ha Hr. unfold Migration.analyze. now rewrite Ha, Hr.
Qed.

Lemma analyzeContent_matches (filePath content : jsstring) :
  matches (analyzeContent filePath content) = matchAll vpcPattern content /\
  vpcConstructs (analyzeContent filePath content) =
    length (matchAll vpcPattern content) /\
  migrationReady (analyzeContent filePath content) =
    (0 <? length (matchAll vpcPattern content)).
Proof.
  unfold analyzeContent, matchGlobal. simpl.
  destruct (matchAll vpcPattern content); repeat split; reflexivity.
Qed.

Lemma analyzeContent_no_match (filePath content : jsstring) :
  matchAll vpcPattern content = [] ->
  analyzeContent filePath content =
    {| file := filePath; vpcConstructs := 0; matches := []; config := None;
       migrationReady := false |}.
Proof.
  intros H. unfold analyzeContent, matchGlobal. now rewrite H.
Qed.

(** C4.  The analysis is ready for migration exactly when it counted at
    least one construct.  When the file can be read and no part of its
    text is a word of the pattern [vpcPattern], the tool returns, as
    indented JSON, the analysis with no construct, no match, no
    configuration and [migrationReady: false]. *)
Theorem analyze_without_construct (fs : FileSystem) (filePath content : jsstring) :
  (migrationReady (analyzeContent filePath content) = true <->
   0 < vpcConstructs (analyzeContent filePath content)) /\
  (access fs filePath = Ok tt ->
   readFile fs filePath = Ok content ->
   ~ hasMatch vpcPattern content ->
   Migration.analyze fs filePath =
     Ok (Tool.textResult (stringify (analysisToJSON (analyzeContent filePath content)))) /\
   analyzeContent filePath content =
     {| file := filePath; vpcConstructs := 0; matches := []; config := None;
        migrationReady := false |}).
Proof.
  split.
  - destruct (analyzeContent_matches filePath content) as [_ [Hc Hr]].
    rewrite Hr, Hc. apply Nat.ltb_lt.
  - intros Ha Hread Hno. split; [now apply analyze_readable|].
    apply analyzeContent_no_match, matchAll_none, Hno.
Qed.

Lemma analyze_without_construct_witness :
  Migration.analyze exampleFs appPath =
    Ok (Tool.textResult (stringify (analysisToJSON (analyzeContent appPath appSource)))) /\
  analyzeContent appPath appSource =
    {| file := appPath; vpcConstructs := 0; matches := []; config := None;
       migrationReady := false |}.
Proof.
  apply (analyze_without_construct exampleFs appPath appSource).
  - reflexivity.
  - reflexivity.
  - apply matchAll_nil_iff. reflexivity.
Defined.

Lemma analyze_inaccessible_path_witness :
  Tool.isError
    (match Migration.analyze exampleFs (lit "/app/lib/absent.ts") with
     | Ok out => out
     | Throw _ => Tool.textResult []
     end) = Some true.
Proof.
  destruct (analyze_inaccessible_path exampleFs (lit "/app/lib/absent.ts")
              (missing (lit "access") (lit "/app/lib/absent.ts")) eq_refl) as [-> _].
  reflexivity.
Defined.

(** C8.  For a readable file whose text is exactly
    [new Vpc(this, 'X', { cidr: '10.0.0.0/16' })] the tool returns, as
    indented JSON, the analysis with one construct and the one match
    [new Vpc(]. *)
Theorem analyze_single_construct (fs : FileSystem) (filePath : jsstring) :
  access fs filePath = Ok tt ->
  readFile fs filePath = Ok (lit "new Vpc(this, 'X', { cidr: '10.0.0.0/16' })") ->
  exists r,
    Migration.analyze fs filePath = Ok (Tool.textResult (stringify (analysisToJSON r))) /\
    r = {| file := filePath; vpcConstructs := 1; matches := [lit "new Vpc("];
           config := Some (lit "{ cidr: '10.0.0.0/16' }"); migrationReady := true |} /\
    vpcConstructs r = 1 /\
    length (matches r) = 1.
Proof.
  intros Ha Hr.
  exists (analyzeContent filePath (lit "new Vpc(this, 'X', { cidr: '10.0.0.0/16' })")).
  split; [now apply analyze_readable|].
  repeat split; reflexivity.
Qed.

Lemma analyze_single_construct_witness :
  exists r,
    Migration.analyze exampleFs stackPath =
      Ok (Tool.textResult (stringify (analysisToJSON r))) /\
    r = {| file := stackPath; vpcConstructs := 1; matches := [lit "new Vpc("];
           config := Some (lit "{ cidr: '10.0.0.0/16' }"); migrationReady := true |} /\
    vpcConstructs r = 1 /\
    length (matches r) = 1.
Proof.
  apply (analyze_single_construct exampleFs stackPath); reflexivity.
Defined.

(** ** Requests do not depend on one another *)

Lemma handle_filesystemFree (fs1 fs2 : FileSystem) (rq : request) :
  filesystemFree rq = true -> handle fs1 rq = handle fs2 rq.
Proof.
  destruct rq; simpl; intros H; try discriminate; reflexivity.
Qed.

(** The answer of [analyze-vpc] does depend on the filesystem. *)
Lemma handle_analyze_depends_on_files :
  handle exampleFs (AnalyzeVpc stackPath) <> handle emptyFs (AnalyzeVpc stackPath).
Proof. vm_compute. discriminate. Qed.

(** The arrays of a handler *)
Lemma pushAt_fresh (h : list (list json)) (a : list json) (v : json) :
  pushAt (length h) v (h ++ [a]) = h ++ [a ++ [v]].
Proof. induction h as [|b h IH]; simpl; [reflexivity | now rewrite IH]. Qed.

Lemma push_fresh (fs : FileSystem) (h : list (list json)) (a : list json) (v : json) :
  push (length h) v {| files := fs; arrays := h ++ [a] |} =
    (Ok tt, {| files := fs; arrays := h ++ [a ++ [v]] |}).
Proof. unfold push. simpl. now rewrite pushAt_fresh. Qed.

Lemma getArray_fresh (fs : FileSystem) (h : list (list json)) (a : list json) :
  getArray (length h) {| files := fs; arrays := h ++ [a] |} =
    (Ok a, {| files := fs; arrays := h ++ [a] |}).
Proof. unfold getArray. simpl. now rewrite nth_middle. Qed.

Lemma lengthOf_fresh (fs : FileSystem) (h : list (list json)) (a : list json) :
  lengthOf (length h) {| files := fs; arrays := h ++ [a] |} =
    (Ok (length a), {| files := fs; arrays := h ++ [a] |}).
Proof. unfold lengthOf. simpl. now rewrite nth_middle. Qed.

Lemma when_true (m : M unit) : when true m = m.
Proof. reflexivity. Qed.

Lemma when_false (m : M unit) : when false m = retM tt.
Proof. reflexivity. Qed.

(** One step of a handler on the array it created. *)
Ltac store_step :=
  first [ rewrite when_true | rewrite when_false
        | rewrite push_fresh | rewrite lengthOf_fresh | rewrite getArray_fresh
        | progress (simpl (Nat.eqb _ _))
        | progress cbv beta iota delta [bindM newArray retM files arrays] ].

Ltac store_run := repeat store_step.

(** In whatever world it starts, the handler returns what the list model
    of the handler returns, and leaves the world with one more array,
    the one it filled. *)
Lemma recommend_run (fs : FileSystem) (h : list (list json)) (cdkCode : jsstring) :
  Stateful.recommend cdkCode {| files := fs; arrays := h |} =
    (Migration.recommend cdkCode,
     {| files := fs; arrays := h ++ [map JStr (recommendations cdkCode)] |}).
Proof.
  unfold Stateful.recommend, Migration.recommend, recommendations, ret.
  destruct (includes cdkCode (lit "subnet"));
    destruct (includes cdkCode (lit "cidr") || includes cdkCode (lit "ipAddress"));
    store_run; reflexivity.
Qed.

Lemma when_push_fresh (b : bool) (fs : FileSystem) (h : list (list json))
      (a : list json) (v : json) :
  when b (push (length h) v) {| files := fs; arrays := h ++ [a] |} =
    (Ok tt, {| files := fs; arrays := h ++ [if b then a ++ [v] else a] |}).
Proof. destruct b; [apply push_fresh | reflexivity]. Qed.

Lemma map_push {A B : Type} (f : A -> B) (b : bool) (l : list A) (y : A) :
  map f (if b then l ++ [y] else l) = if b then map f l ++ [f y] else map f l.
Proof. destruct b; [apply map_app | reflexivity]. Qed.

(** The conditional pushes of a handler, one after the other. *)
Ltac store_pushes :=
  cbv beta iota delta [bindM newArray retM files arrays];
  repeat (rewrite when_push_fresh; cbv beta iota).

Lemma recommendation_property (l : list Issue) :
  map (fun r => property r (lit "recommendation")) (map issueToJSON l) =
    map JStr (map recommendation l).
Proof.
  induction l as [|r l IH]; simpl map; [reflexivity|]. now rewrite IH.
Qed.

Lemma validate_run (fs : FileSystem) (h : list (list json))
      (originalCode migratedCode : jsstring) :
  Stateful.validate originalCode migratedCode {| files := fs; arrays := h |} =
    (Migration.validate originalCode migratedCode,
     {| files := fs;
        arrays := h ++ [map issueToJSON (validationResults originalCode migratedCode)] |}).
Proof.
  unfold Stateful.validate. store_pushes.
  match goal with
  | |- context [lengthOf _ {| files := _; arrays := _ ++ [?a] |}] =>
      replace a with (map issueToJSON (validationResults originalCode migratedCode))
        by (unfold validationResults; cbv zeta; now rewrite !map_push)
  end.
  rewrite lengthOf_fresh, length_map. cbv beta iota.
  rewrite getArray_fresh. cbv beta iota. rewrite lengthOf_fresh, length_map.
  unfold Migration.validate, validation, ret, validationToJSON.
  cbv beta iota delta [status issues recommendations_].
  destruct (length (validationResults originalCode migratedCode) =? 0);
    cbv beta iota delta [bindM retM].
  - reflexivity.
  - rewrite getArray_fresh. cbv beta iota. now rewrite recommendation_property.
Qed.

Lemma document_run (fs : FileSystem) (h : list (list json))
      (originalCode migratedCode : jsstring) :
  Stateful.document originalCode migratedCode {| files := fs; arrays := h |} =
    (Migration.document originalCode migratedCode,
     {| files := fs;
        arrays := h ++ [map JStr (changes originalCode migratedCode)] |}).
Proof.
  unfold Stateful.document. store_pushes.
  match goal with
  | |- context [getArray _ {| files := _; arrays := _ ++ [?a] |}] =>
      replace a with (map JStr (changes originalCode migratedCode))
        by (unfold changes; cbv zeta; now rewrite !map_push)
  end.
  rewrite getArray_fresh. cbv beta iota. rewrite map_map.
  reflexivity.
Qed.

(** Every handler answers as its list model does on the filesystem of
    the moment, changes no file and no array that was there before. *)
Lemma handle_run (rq : request) (fs : FileSystem) (h : list (list json)) :
  exists created,
    Stateful.handle rq {| files := fs; arrays := h |} =
      (Migration.handle fs rq, {| files := fs; arrays := h ++ created |}).
Proof.
  destruct rq; simpl Stateful.handle; simpl Migration.handle.
  - exists []. unfold withFiles. simpl. now rewrite app_nil_r.
  - eexists. apply recommend_run.
  - exists []. unfold withFiles. simpl. now rewrite app_nil_r.
  - eexists. apply validate_run.
  - eexists. apply document_run.
Qed.

Lemma serve_nth (requests : list (FileSystem * request)) :
  forall (store : list (list json)) (i : nat) (fs : FileSystem) (rq : request),
    nth_error requests i = Some (fs, rq) ->
    nth_error (Stateful.serve store requests) i = Some (Migration.handle fs rq).
Proof.
  induction requests as [|[fs0 rq0] requests IH]; intros store i fs rq H.
  - destruct i; discriminate.
  - simpl Stateful.serve.
    destruct (handle_run rq0 fs0 store) as [created ->].
    destruct i as [|i]; simpl in H |- *.
    + now injection H as -> ->.
    + now apply IH.
Qed.

(** What a program reads from an array that outlives the call depends on
    the world it runs in. *)
Lemma store_reads_depend_on_world :
  fst (lengthOf 0 {| files := emptyFs; arrays := [[]] |}) <>
  fst (lengthOf 0 {| files := emptyFs; arrays := [[JNull]] |}).
Proof. discriminate. Qed.

(** C9.  The handlers recommend, validate and document fill an array of
    their own and read nothing else: started in any two worlds, that is
    with any filesystems and any arrays left behind by earlier requests,
    each returns the same result for the same arguments; and no handler
    changes a file or an array that was there before the call.  So in
    any run of the server, from any store, two requests to one of the
    three with the same arguments get the same answer, wherever they
    stand in the run and whatever was served between them. *)
Theorem filesystem_free_requests_repeatable
        (w1 w2 : World) (cdkCode originalCode migratedCode : jsstring)
        (store : list (list json)) (requests : list (FileSystem * request))
        (i j : nat) (fs1 fs2 : FileSystem) (rq : request) :
  fst (Stateful.recommend cdkCode w1) = fst (Stateful.recommend cdkCode w2) /\
  fst (Stateful.validate originalCode migratedCode w1) =
    fst (Stateful.validate originalCode migratedCode w2) /\
  fst (Stateful.document originalCode migratedCode w1) =
    fst (Stateful.document originalCode migratedCode w2) /\
  (exists created,
      snd (Stateful.handle rq w1) =
        {| files := files w1; arrays := arrays w1 ++ created |}) /\
  (filesystemFree rq = true ->
   nth_error requests i = Some (fs1, rq) ->
   nth_error requests j = Some (fs2, rq) ->
   nth_error (Stateful.serve store requests) i =
     nth_error (Stateful.serve store requests) j).
Proof.
  destruct w1 as [f1 h1], w2 as [f2 h2].
  rewrite !recommend_run, !validate_run, !document_run.
  split; [reflexivity|]. split; [reflexivity|]. split; [reflexivity|]. split.
  { destruct (handle_run rq f1 h1) as [created ->]. now exists created. }
  intros Hfree Hi Hj.
  rewrite (serve_nth _ _ _ _ _ Hi), (serve_nth _ _ _ _ _ Hj).
  f_equal. now apply handle_filesystemFree.
Qed.

Lemma filesystem_free_requests_repeatable_witness :
  nth_error
    (Stateful.serve [[JNull]]
       [(emptyFs, ValidateVpcMigration stackSource appSource);
        (exampleFs, AnalyzeVpc stackPath);
        (exampleFs, GetVpcMigrationRecommendations stackSource);
        (exampleFs, ValidateVpcMigration stackSource appSource)]) 0 =
  nth_error
    (Stateful.serve [[JNull]]
       [(emptyFs, ValidateVpcMigration stackSource appSource);
        (exampleFs, AnalyzeVpc stackPath);
        (exampleFs, GetVpcMigrationRecommendations stackSource);
        (exampleFs, ValidateVpcMigration stackSource appSource)]) 3.
Proof.
  apply (filesystem_free_requests_repeatable
           {| files := emptyFs; arrays := [] |} {| files := emptyFs; arrays := [] |}
           [] [] [] [[JNull]]
           [(emptyFs, ValidateVpcMigration stackSource appSource);
            (exampleFs, AnalyzeVpc stackPath);
            (exampleFs, GetVpcMigrationRecommendations stackSource);
            (exampleFs, ValidateVpcMigration stackSource appSource)]
           0 3 emptyFs exampleFs (ValidateVpcMigration stackSource appSource));
    reflexivity.
Defined.

(** ** refactor-vpc *)

Lemma splitAtFirst_absent (s sub : jsstring) :
  includes s sub = false -> splitAtFirst s sub = None.
Proof.
  induction s as [|c s IH]; simpl; intros H; apply orb_false_iff in H as [H1 H2].
  - now rewrite H1.
  - now rewrite H1, (IH H2).
Qed.

(** A string pattern that does not occur leaves the text as it is. *)
Lemma replaceString_absent (s sub tpl : jsstring) :
  includes s sub = false -> replaceString s sub tpl = s.
Proof.
  intros H. unfold replaceString. now rewrite (splitAtFirst_absent s sub H).
Qed.

Lemma replaceAllFrom_skip (r : regex) (tpl before s : jsstring) (c : N) (n : nat) :
  replaceAllFrom r tpl before (c :: s) (S n) = replaceAllFrom r tpl (before ++ [c]) s n.
Proof. reflexivity. Qed.

Lemma replaceAllFrom_no_match (r : regex) (tpl before s : jsstring) (c : N) :
  exec r (c :: s) = None ->
  replaceAllFrom r tpl before (c :: s) 0 = c :: replaceAllFrom r tpl (before ++ [c]) s 0.
Proof. intros H. simpl. now rewrite H. Qed.

Lemma replaceAllFrom_match (r : regex) (tpl before m rest : jsstring) (c : N)
      (cap : option jsstring) :
  exec r (c :: m ++ rest) = Some (rest, cap) ->
  replaceAllFrom r tpl before (c :: m ++ rest) 0 =
    getSubstitution (c :: m) before rest (captures r cap) tpl ++
    replaceAllFrom r tpl (before ++ [c]) (m ++ rest) (length m).
Proof.
  intros H. simpl replaceAllFrom. rewrite H.
  change (c :: m ++ rest) with ((c :: m) ++ rest). now rewrite consumed_app.
Qed.

(** What the template [new SubnetV2([$1])] expands to. *)
Lemma subnetTemplate_expands (matched before after : jsstring) (cap : option jsstring) :
  getSubstitution matched before after (captures subnetPattern cap) subnetTemplate =
    lit "new SubnetV2(" ++ [ch "["] ++
    match cap with Some x => x | None => [] end ++ [ch "]"; ch ")"].
Proof. destruct cap; reflexivity. Qed.

Lemma skipn_length_app (m rest : jsstring) : skipn (length m) (m ++ rest) = rest.
Proof. induction m; simpl; auto. Qed.

(** The rewrite of the subnet configurations brings in no occurrence of
    a text without brackets that starts with [h], not a closing
    parenthesis, and ends with [z], a character foreign to the inserted
    [new SubnetV2(]. *)
Section SubnetRewrite.

Variables (h z : N) (body : jsstring).

Local Abbreviation sub := (h :: body ++ [z]).

Hypothesis Hopen : ~ In (ch "[") sub.
Hypothesis Hclose : ~ In (ch "]") sub.
Hypothesis Hh : h <> ch ")".
Hypothesis Hz : ~ In z (lit "new SubnetV2(").

Lemma subnet_rewrite_brings_no :
  forall (s before out : jsstring) (skip : nat),
    ~ occurs sub (out ++ skipn skip s) ->
    ~ occurs sub (out ++ replaceAllFrom subnetPattern subnetTemplate before s skip).
Proof.
  induction s as [|c s IH]; intros before out skip H.
  - rewrite skipn_nil in H. destruct skip; exact H.
  - destruct skip as [|n].
    2:{ rewrite replaceAllFrom_skip. apply IH. exact H. }
    simpl skipn in H.
    destruct (exec subnetPattern (c :: s)) as [[rest cap]|] eqn:He.
    2:{ rewrite (replaceAllFrom_no_match _ _ _ _ _ He).
        change (out ++ c :: ?t) with (out ++ [c] ++ t). rewrite app_assoc.
        apply IH. simpl skipn. rewrite <- app_assoc. exact H. }
    destruct (exec_sound _ _ _ _ He) as [w [Hs [Hw Hcap]]].
    destruct w as [|x m].
    { apply lang_nullable in Hw; [discriminate | reflexivity]. }
    injection Hs as <- ->.
    rewrite (replaceAllFrom_match _ _ _ _ _ _ _ He), subnetTemplate_expands.
    set (R := replaceAllFrom subnetPattern subnetTemplate (before ++ [c]) (m ++ rest)
                             (length m)).
    assert (HR : ~ occurs (h :: body ++ [z]) ([ch ")"] ++ R)).
    { apply IH. rewrite skipn_length_app. intros Ho.
      apply occurs_head in Ho; [|congruence].
      apply H. apply occurs_app_r. apply (occurs_app_r _ (c :: m)). exact Ho. }
    intros Ho. rewrite <- !app_assoc in Ho. rewrite app_assoc in Ho.
    apply occurs_split in Ho as [Ho | Ho]; [| |exact Hopen].
    + apply (occurs_last (h :: body) out _ z Hz) in Ho.
      apply H. now apply occurs_app_l.
    + apply occurs_split in Ho as [Ho | Ho]; [| |exact Hclose].
      * apply H. apply occurs_app_r.
        change (c :: m ++ rest) with ((c :: m) ++ rest). apply occurs_app_l.
        destruct Hcap as [-> | [x [-> Hx]]].
        -- destruct Ho as [[|? ?] [? Ho]]; discriminate.
        -- exact (occurs_trans _ _ _ Ho Hx).
      * exact (HR Ho).
Qed.

End SubnetRewrite.

Lemma absent_char (c : N) (l : jsstring) :
  forallb (fun d => negb (N.eqb d c)) l = true -> ~ In c l.
Proof.
  intros H Hin. rewrite forallb_forall in H. specialize (H c Hin).
  now rewrite N.eqb_refl in H.
Qed.

Lemma subnet_rewrite_keeps_absent (sub body : jsstring) (h z : N) :
  sub = h :: body ++ [z] ->
  forallb (fun d => negb (N.eqb d (ch "["))) sub = true ->
  forallb (fun d => negb (N.eqb d (ch "]"))) sub = true ->
  N.eqb h (ch ")") = false ->
  forallb (fun d => negb (N.eqb d z)) (lit "new SubnetV2(") = true ->
  forall s,
    includes s sub = false ->
    includes (replaceAll subnetPattern subnetTemplate s) sub = false.
Proof.
  intros -> Hopen Hclose Hh Hz s. rewrite !includes_false. intros H.
  apply (subnet_rewrite_brings_no h z body
           (absent_char _ _ Hopen) (absent_char _ _ Hclose)
           (proj1 (N.eqb_neq _ _) Hh) (absent_char _ _ Hz) s [] [] 0).
  exact H.
Qed.

Lemma rewriteSubnets_keeps_absent_cidr (migrationApproach cdkCode : jsstring) :
  includes cdkCode cidrSearch = false ->
  includes (rewriteSubnets migrationApproach cdkCode) cidrSearch = false.
Proof.
  intros H. unfold rewriteSubnets.
  destruct (includes migrationApproach (lit "Subnet")); [|exact H].
  now apply (subnet_rewrite_keeps_absent
               cidrSearch (lit "pAddresses: IpAddresses.cidr('$1'") (ch "i") (ch ")")).
Qed.

Lemma rewriteSubnets_keeps_absent_ipam (migrationApproach cdkCode : jsstring) :
  includes cdkCode ipamSearch = false ->
  includes (rewriteSubnets migrationApproach cdkCode) ipamSearch = false.
Proof.
  intros H. unfold rewriteSubnets.
  destruct (includes migrationApproach (lit "Subnet")); [|exact H].
  now apply (subnet_rewrite_keeps_absent
               ipamSearch (lit "pAddresses: IpAddresses.awsIpamAllocation('$1'")
               (ch "i") (ch ")")).
Qed.

(** C10.  The rewrites behind the tests for "cidr" and "IPAM" look for
    the texts [ipAddresses: IpAddresses.cidr('$1')] and
    [ipAddresses: IpAddresses.awsIpamAllocation('$1')], with [$1] as
    written.  When the code contains neither text, the two rewrites
    change nothing, whatever the migration approach says, and the result
    is the code after the rewrite of the subnet configurations, with the
    import statement in front when the import step adds it. *)
Theorem refactor_literal_rewrites_inert (cdkCode migrationApproach : jsstring) :
  includes cdkCode (lit "ipAddresses: IpAddresses.cidr('$1')") = false ->
  includes cdkCode (lit "ipAddresses: IpAddresses.awsIpamAllocation('$1')") = false ->
  rewriteCidr migrationApproach (rewriteSubnets migrationApproach cdkCode) =
    rewriteSubnets migrationApproach cdkCode /\
  rewriteIpam migrationApproach (rewriteSubnets migrationApproach cdkCode) =
    rewriteSubnets migrationApproach cdkCode /\
  refactor cdkCode migrationApproach =
    Ok (Tool.textResult (addImports (rewriteSubnets migrationApproach cdkCode))) /\
  (addImports (rewriteSubnets migrationApproach cdkCode) =
     rewriteSubnets migrationApproach cdkCode \/
   addImports (rewriteSubnets migrationApproach cdkCode) =
     importSection ++ newline ++ newline ++ rewriteSubnets migrationApproach cdkCode) /\
  (includes migrationApproach (lit "Subnet") = false ->
   rewriteSubnets migrationApproach cdkCode = cdkCode).
Proof.
  intros Hcidr Hipam.
  assert (Hc : rewriteCidr migrationApproach (rewriteSubnets migrationApproach cdkCode) =
               rewriteSubnets migrationApproach cdkCode).
  { unfold rewriteCidr.
    destruct (includes migrationApproach (lit "cidr")); [|reflexivity].
    apply replaceString_absent. now apply rewriteSubnets_keeps_absent_cidr. }
  assert (Hi : rewriteIpam migrationApproach (rewriteSubnets migrationApproach cdkCode) =
               rewriteSubnets migrationApproach cdkCode).
  { unfold rewriteIpam.
    destruct (includes migrationApproach (lit "IPAM")); [|reflexivity].
    apply replaceString_absent. now apply rewriteSubnets_keeps_absent_ipam. }
  split; [exact Hc|]. split; [exact Hi|]. split; [|split].
  - unfold refactor, refactorCode. now rewrite Hc, Hi.
  - unfold addImports.
    destruct (negb (includes (rewriteSubnets migrationApproach cdkCode)
                             (lit "SubnetConfiguration")) ||
              negb (includes (rewriteSubnets migrationApproach cdkCode)
                             (lit "IpAddresses")) ||
              negb (includes (rewriteSubnets migrationApproach cdkCode) (lit "Ipam")));
      [now right | now left].
  - intros Hs. unfold rewriteSubnets. now rewrite Hs.
Qed.

Lemma refactor_literal_rewrites_inert_witness :
  refactor (lit "new ec2.Vpc(this, 'Net', { ipAddresses: IpAddresses.cidr('10.0.0.0/16') })")
           (lit "cidr and IPAM") =
    Ok (Tool.textResult
          (importSection ++ newline ++ newline ++
           lit "new ec2.Vpc(this, 'Net', { ipAddresses: IpAddresses.cidr('10.0.0.0/16') })")).
Proof.
  destruct (refactor_literal_rewrites_inert
              (lit "new ec2.Vpc(this, 'Net', { ipAddresses: IpAddresses.cidr('10.0.0.0/16') })")
              (lit "cidr and IPAM") eq_refl eq_refl) as [_ [_ [-> _]]].
  reflexivity.
Defined.

(** The rewrite does fire on the text with [$1] as written, and puts the
    template in its place, [$1] included. *)
Example refactor_rewrites_literal_text :
  rewriteCidr (lit "cidr") (lit "{ ipAddresses: IpAddresses.cidr('$1') }") =
    lit "{ primaryAddressBlock:  IpAddresses.ipv4('$1') }".
Proof. reflexivity. Qed.

(** ** refactor-vpc: the import step *)

(** C2.  The import step is not idempotent: a second run of the tool on
    its own output adds the import statement again.  For the empty code
    and any migration approach, and for a plain construct with the
    approach "Subnet", the text refactored twice holds the import
    statement twice, although the step is meant to add it only when it is
    not already present. *)
Theorem refactor_twice_repeats_import (migrationApproach : jsstring) :
  occurrences (refactorCode (refactorCode [] migrationApproach) migrationApproach)
              importSection = 2 /\
  occurrences (refactorCode (refactorCode (lit "new ec2.Vpc(this, 'Net', { maxAzs: 2 })")
                                          (lit "Subnet"))
                            (lit "Subnet"))
              importSection = 2.
Proof.
  split; [|reflexivity].
  unfold refactorCode, rewriteSubnets, rewriteCidr, rewriteIpam.
  destruct (includes migrationApproach (lit "Subnet"));
    destruct (includes migrationApproach (lit "cidr"));
    destruct (includes migrationApproach (lit "IPAM")); reflexivity.
Qed.

(** The sibling variant tests for a text of the import statement itself,
    so its second run adds the placeholder comment only. *)
Lemma placeholder_refactor_keeps_import (cdkCode : jsstring) :
  Placeholder.refactorCode (Placeholder.refactorCode cdkCode) =
    Placeholder.placeholderComment ++ Placeholder.refactorCode cdkCode.
Proof.
  unfold Placeholder.refactorCode at 1. f_equal.
  unfold Placeholder.addImports at 1.
  replace (includes (Placeholder.refactorCode cdkCode) (lit "@aws-cdk/aws-ec2-alpha"))
    with true; [reflexivity|].
  symmetry. unfold Placeholder.refactorCode. apply includes_app_r.
  unfold Placeholder.addImports.
  destruct (includes cdkCode (lit "@aws-cdk/aws-ec2-alpha")) eqn:H; simpl negb; cbv iota.
  - exact H.
  - now apply includes_app_l.
Qed.

(** * Further properties of the handlers *)

(** ** Every tool call is answered *)

(** X1.  Whatever the request and the filesystem, the dispatch returns
    a result with exactly one content entry of type "text" and never
    throws; only [analyze-vpc] ever flags its result as an error. *)
Theorem handle_one_text_block (fs : FileSystem) (rq : request) :
  exists text flag,
    handle fs rq =
      Ok {| Tool.content := [{| Tool.type := lit "text"; Tool.text := text |}];
            Tool.isError := flag |} /\
    (flag = None \/ flag = Some true /\ exists filePath, rq = AnalyzeVpc filePath).
Proof.
  destruct rq as [filePath|cdkCode|cdkCode approach|o m|o m]; simpl;
    try (eexists; exists None; split; [reflexivity | now left]).
  unfold Migration.analyze.
  destruct (access fs filePath) as [[]|err].
  - destruct (readFile fs filePath) as [content|err]; simpl.
    + eexists; exists None; split; [reflexivity | now left].
    + eexists; exists (Some true); split; [reflexivity | right; eauto].
  - eexists; exists (Some true); split; [reflexivity | right; eauto].
Qed.

(** ** analyze-vpc: a file that cannot be read *)

(** X2.  When the path is accessible but reading it fails, the tool, in
    both variants, returns a result flagged as an error whose text is
    "Error analyzing file: " followed by the text of the error. *)
Theorem analyze_unreadable_file (fs : FileSystem) (filePath : jsstring) (error : thrown) :
  access fs filePath = Ok tt ->
  readFile fs filePath = Throw error ->
  Migration.analyze fs filePath =
    Ok (Tool.errorResult (lit "Error analyzing file: " ++ errorText error)) /\
  Placeholder.analyze fs filePath =
    Ok (Tool.errorResult (lit "Error analyzing file: " ++ errorText error)).
Proof.
  intros Ha Hr. unfold Migration.analyze, Placeholder.analyze.
  rewrite Ha, Hr. split; reflexivity.
Qed.

Lemma analyze_unreadable_file_witness :
  Migration.analyze directoryFs libPath =
    Ok (Tool.errorResult
          (lit "Error analyzing file: EISDIR: illegal operation on a directory, read")).
Proof.
  apply (analyze_unreadable_file directoryFs libPath
           (ErrorObject (lit "EISDIR: illegal operation on a directory, read")));
    reflexivity.
Defined.

(** X3.  In both variants the result of [analyze-vpc] is flagged as an
    error exactly when the accessibility check or the read fails. *)
Theorem analyze_error_iff_unavailable (fs : FileSystem) (filePath : jsstring) :
  exists out out',
    Migration.analyze fs filePath = Ok out /\
    Placeholder.analyze fs filePath = Ok out' /\
    Tool.isError out = Tool.isError out' /\
    (Tool.isError out = Some true <->
     (exists err, access fs filePath = Throw err) \/
     (exists err, readFile fs filePath = Throw err)).
Proof.
  unfold Migration.analyze, Placeholder.analyze.
  destruct (access fs filePath) as [[]|err] eqn:Ha.
  - destruct (readFile fs filePath) as [content|err] eqn:Hr; simpl.
    + do 2 eexists. repeat split; try reflexivity.
      * discriminate.
      * intros [[err H] | [err H]]; discriminate.
    + do 2 eexists. repeat split; try reflexivity. right. now exists err.
  - do 2 eexists. repeat split; try reflexivity. left. now exists err.
Qed.

(** ** analyze-vpc: what the matches are *)

Lemma Parts_prepend (c : N) (s : jsstring) (ms : list jsstring) :
  Parts s ms -> Parts (c :: s) ms.
Proof.
  intros H. destruct H as [s|gap m s ms H].
  - constructor.
  - change (c :: gap ++ m ++ s) with ((c :: gap) ++ m ++ s). now constructor.
Qed.

Lemma matchAllFrom_Parts (r : regex) (s : jsstring) :
  forall skip, Parts (skipn skip s) (matchAllFrom r s skip).
Proof.
  induction s as [|c s IH]; intros skip.
  - rewrite skipn_nil. simpl. destruct skip; [|constructor].
    destruct (exec r []); [|constructor].
    apply (Parts_cons [] [] [] []). constructor.
  - destruct skip as [|n]; [|apply IH]. simpl.
    destruct (exec r (c :: s)) as [[rest cap]|] eqn:He.
    + destruct (exec_sound _ _ _ _ He) as [w [Hs _]].
      assert (Hw : consumed (c :: s) rest = w) by (rewrite Hs; apply consumed_app).
      rewrite Hw. destruct w as [|x m]; simpl in Hs.
      * subst rest. apply (Parts_cons [] [] (c :: s)).
        apply Parts_prepend. apply (IH 0).
      * injection Hs as <- ->.
        replace (length (c :: m) - 1) with (length m) by (simpl; lia).
        apply (Parts_cons [] (c :: m) rest).
        specialize (IH (length m)). now rewrite skipn_length_app in IH.
    + apply Parts_prepend. apply (IH 0).
Qed.

Lemma matchAllFrom_words (r : regex) (s : jsstring) :
  forall skip m, In m (matchAllFrom r s skip) -> lang r m.
Proof.
  induction s as [|c s IH]; intros skip m; simpl.
  - destruct skip; [|intros []].
    destruct (exec r []) as [[rest cap]|] eqn:He; [|intros []].
    intros [<- | []]. destruct (exec_sound _ _ _ _ He) as [w [Hs [Hw _]]].
    symmetry in Hs. apply app_eq_nil in Hs as [-> _]. exact Hw.
  - destruct skip as [|n]; [|apply IH].
    destruct (exec r (c :: s)) as [[rest cap]|] eqn:He; [|apply IH].
    intros [<- | H]; [|now apply IH in H].
    destruct (exec_sound _ _ _ _ He) as [w [Hs [Hw _]]].
    rewrite Hs, consumed_app. exact Hw.
Qed.

Lemma Parts_hasMatch (r : regex) (s m : jsstring) (ms : list jsstring) :
  Parts s (m :: ms) -> lang r m -> hasMatch r s.
Proof.
  intros H Hm. inversion H as [|gap m' s' ms' _]; subst. now exists gap, m, s'.
Qed.

Lemma Parts_occurs (s : jsstring) (ms : list jsstring) :
  Parts s ms -> forall m, In m ms -> occurs m s.
Proof.
  induction 1 as [s|gap m s ms H IH]; intros x; [intros []|].
  intros [<- | Hx].
  - now exists gap, s.
  - apply occurs_app_r, occurs_app_r. now apply IH.
Qed.

Lemma Parts_length (n : nat) (s : jsstring) (ms : list jsstring) :
  Parts s ms -> (forall m, In m ms -> n <= length m) -> n * length ms <= length s.
Proof.
  induction 1 as [s|gap m s ms H IH]; intros Hn; simpl length.
  - lia.
  - rewrite !length_app.
    assert (n <= length m) by (apply Hn; now left).
    assert (n * length ms <= length s) by (apply IH; intros; apply Hn; now right).
    lia.
Qed.

(** The words of a literal, a sequence and the other patterns. *)
Lemma lang_str (l w : jsstring) : lang (str l) w -> w = l.
Proof.
  revert w; induction l as [|c l IH]; simpl; intros w H.
  - now inversion H.
  - inversion H as [| | |a b u v Hu Hv| | | |]; subst.
    inversion Hu; subst. simpl. f_equal. now apply IH.
Qed.

Lemma lang_Seq (a b : regex) (w : jsstring) :
  lang (Seq a b) w -> exists u v, w = u ++ v /\ lang a u /\ lang b v.
Proof. intros H. inversion H; subst. eauto. Qed.

Lemma lang_Chr (c : N) (w : jsstring) : lang (Chr c) w -> w = [c].
Proof. intros H. now inversion H. Qed.

Lemma lang_Star (p : N -> bool) (g : bool) (w : jsstring) :
  lang (Star p g) w -> Forall (fun c => p c = true) w.
Proof. intros H. now inversion H. Qed.

Lemma lang_Plus (p : N -> bool) (w : jsstring) :
  lang (Plus p) w -> w <> [] /\ Forall (fun c => p c = true) w.
Proof.
  intros H. apply lang_Seq in H as [u [v [-> [Hu Hv]]]].
  inversion Hu; subst. apply lang_Star in Hv. split; [discriminate|].
  now constructor.
Qed.

Lemma lang_Opt_str (l w : jsstring) : lang (Opt (str l)) w -> w = [] \/ w = l.
Proof.
  intros H. inversion H; subst; [now left | right; now apply lang_str].
Qed.

(** The words of the construct pattern. *)
Lemma vpcPattern_words (w : jsstring) :
  lang vpcPattern w ->
  exists ws1 qualifier ws2,
    w = lit "new" ++ ws1 ++ qualifier ++ lit "Vpc" ++ ws2 ++ lit "(" /\
    ws1 <> [] /\ Forall (fun c => isWhiteSpace c = true) ws1 /\
    (qualifier = [] \/ qualifier = lit "ec2.") /\
    Forall (fun c => isWhiteSpace c = true) ws2.
Proof.
  unfold vpcPattern. intros H.
  apply lang_Seq in H as [u1 [v1 [-> [H1 H]]]]. apply lang_str in H1 as ->.
  apply lang_Seq in H as [u2 [v2 [-> [H2 H]]]]. apply lang_Plus in H2 as [H2 H2'].
  apply lang_Seq in H as [u3 [v3 [-> [H3 H]]]]. apply lang_Opt_str in H3.
  apply lang_Seq in H as [u4 [v4 [-> [H4 H]]]]. apply lang_str in H4 as ->.
  apply lang_Seq in H as [u5 [v5 [-> [H5 H]]]]. apply lang_Star in H5.
  apply lang_Chr in H as ->.
  exists u2, u3, u5. repeat split; auto.
Qed.

(** X4.  The analysis is ready for migration exactly when some part of
    the text is a word of the construct pattern, and it counts no
    construct exactly when there is none. *)
Theorem analyze_ready_iff_pattern (filePath content : jsstring) :
  (migrationReady (analyzeContent filePath content) = true <->
   hasMatch vpcPattern content) /\
  (vpcConstructs (analyzeContent filePath content) = 0 <->
   ~ hasMatch vpcPattern content).
Proof.
  destruct (analyzeContent_matches filePath content) as [_ [Hc Hr]].
  rewrite Hr, Hc, <- matchAll_nil_iff.
  assert (HP := matchAllFrom_Parts vpcPattern content 0).
  assert (HW := matchAllFrom_words vpcPattern content 0).
  fold (matchAll vpcPattern content) in HP, HW.
  destruct (matchAll vpcPattern content) as [|m ms] eqn:E; simpl.
  - split; split; try reflexivity; try discriminate.
    intros H. apply matchAll_complete in H. congruence.
  - split; split; try reflexivity; try discriminate.
    intros _. apply (Parts_hasMatch vpcPattern content m ms HP).
    apply HW. now left.
Qed.

(** X5.  The matches the analysis reports lie in the text of the file one
    after the other without overlap.  Each is "new", white space, an
    optional "ec2.", "Vpc", optional white space and an opening
    parenthesis; so a text holds at most one construct per eight
    characters. *)
Theorem analyze_matches_in_order (filePath content : jsstring) :
  Parts content (matches (analyzeContent filePath content)) /\
  (forall m, In m (matches (analyzeContent filePath content)) ->
     occurs m content /\
     exists ws1 qualifier ws2,
       m = lit "new" ++ ws1 ++ qualifier ++ lit "Vpc" ++ ws2 ++ lit "(" /\
       ws1 <> [] /\ Forall (fun c => isWhiteSpace c = true) ws1 /\
       (qualifier = [] \/ qualifier = lit "ec2.") /\
       Forall (fun c => isWhiteSpace c = true) ws2) /\
  8 * vpcConstructs (analyzeContent filePath content) <= length content.
Proof.
  destruct (analyzeContent_matches filePath content) as [Hm [Hc _]].
  rewrite Hm, Hc.
  assert (HP := matchAllFrom_Parts vpcPattern content 0).
  assert (HW := matchAllFrom_words vpcPattern content 0).
  fold (matchAll vpcPattern content) in HP, HW. simpl skipn in HP.
  assert (Hshape := fun m H => vpcPattern_words m (HW m H)).
  split; [exact HP|]. split.
  - intros m H. split; [now apply (Parts_occurs content _ HP) | now apply Hshape].
  - apply Parts_length; [exact HP|]. intros m H.
    destruct (Hshape m H) as [ws1 [q [ws2 [-> [Hne _]]]]].
    rewrite !length_app. destruct ws1; [congruence|]. simpl. lia.
Qed.

(** ** analyze-vpc: the extracted configuration *)

Lemma run_sound_groups (r : regex) :
  forall (s : jsstring) (cap : option jsstring) (k : cont) (res : mstate),
    run r s cap k = Some res ->
    exists w rest cap',
      s = w ++ rest /\ lang r w /\ k rest cap' = Some res /\
      (cap' = cap \/
       exists x a, cap' = Some x /\ occurs x w /\ In a (groups r) /\ lang a x).
Proof.
  induction r as [|c|p|a IHa b IHb|a IHa|p g|a IHa]; simpl; intros s cap k res H.
  - exists [], s, cap. repeat split; auto using lang.
  - destruct s as [|d s]; [discriminate|].
    destruct (N.eqb_spec d c) as [->|]; [|discriminate].
    exists [c], s, cap. repeat split; auto using lang.
  - destruct s as [|d s]; [discriminate|].
    destruct (p d) eqn:Hp; [|discriminate].
    exists [d], s, cap. repeat split; auto using lang.
  - apply IHa in H as [u [s1 [cap1 [-> [Hu [H Hcap1]]]]]].
    apply IHb in H as [v [s2 [cap2 [-> [Hv [H Hcap2]]]]]].
    exists (u ++ v), s2, cap2. rewrite app_assoc. repeat split; auto using lang.
    destruct Hcap2 as [-> | [x [g [-> [Hx [Hg Hl]]]]]].
    + destruct Hcap1 as [-> | [x [g [-> [Hx [Hg Hl]]]]]]; [now left | right].
      exists x, g. repeat split; auto using occurs_app_l, in_or_app.
    + right. exists x, g. repeat split; auto using occurs_app_r, in_or_app.
  - destruct (run a s cap k) eqn:Ha; simpl in H.
    + injection H as ->. apply IHa in Ha as [u [s1 [cap1 [-> [Hu [H Hcap1]]]]]].
      exists u, s1, cap1. repeat split; auto using lang.
    + exists [], s, cap. repeat split; auto using lang.
  - apply star_sound in H as [w [rest [-> [Hw H]]]].
    exists w, rest, cap. repeat split; auto using lang.
  - apply IHa in H as [u [s1 [cap1 [-> [Hu [H _]]]]]].
    rewrite consumed_app in H.
    exists u, s1, (Some u). repeat split; auto using lang.
    right. exists u, a. repeat split; auto using occurs_refl, in_eq.
Qed.

(** The leftmost match: its text is a word of the pattern, and its
    capture, if any, a word of the group inside the match. *)
Lemma search_sound (r : regex) (s m : jsstring) (caps : list (option jsstring)) :
  search r s = Some (m, caps) ->
  exists before rest cap,
    s = before ++ m ++ rest /\ lang r m /\ caps = captures r cap /\
    (cap = None \/
     exists x a, cap = Some x /\ occurs x m /\ In a (groups r) /\ lang a x).
Proof.
  assert (Hexec : forall t rest cap, exec r t = Some (rest, cap) ->
            exists before rest' cap',
              t = before ++ consumed t rest ++ rest' /\ lang r (consumed t rest) /\
              captures r cap = captures r cap' /\
              (cap' = None \/
               exists x a, cap' = Some x /\ occurs x (consumed t rest) /\
                           In a (groups r) /\ lang a x)).
  { intros t rest cap He. unfold exec in He.
    apply run_sound_groups in He as [w [rest' [cap' [-> [Hw [H Hcap]]]]]].
    injection H as -> ->. rewrite consumed_app.
    exists [], rest, cap. repeat split; auto. }
  induction s as [|c s IH]; simpl.
  - destruct (exec r []) as [[rest cap]|] eqn:He; [|discriminate].
    intros H. injection H as <- <-.
    destruct (Hexec _ _ _ He) as [b [r' [c' [H1 [H2 [H3 H4]]]]]].
    exists b, r', c'. auto.
  - destruct (exec r (c :: s)) as [[rest cap]|] eqn:He.
    + intros H. injection H as <- <-.
      destruct (Hexec _ _ _ He) as [b [r' [c' [H1 [H2 [H3 H4]]]]]].
      exists b, r', c'. auto.
    + intros H. apply IH in H as [b [r' [c' [-> [H2 [H3 H4]]]]]].
      exists (c :: b), r', c'. auto.
Qed.

Lemma trimStart_spaces (l t : jsstring) (c : N) :
  Forall (fun d => isWhiteSpace d = true) l -> isWhiteSpace c = false ->
  trimStart (l ++ c :: t) = c :: t.
Proof.
  intros Hl Hc. induction Hl as [|d l Hd Hl IH]; simpl.
  - now rewrite Hc.
  - now rewrite Hd.
Qed.

Lemma trimStart_kept (t : jsstring) (c : N) :
  isWhiteSpace c = false -> trimStart (c :: t) = c :: t.
Proof. intros H. simpl. now rewrite H. Qed.

Lemma trim_spaces_after (a ws : jsstring) (c z : N) :
  isWhiteSpace c = false -> isWhiteSpace z = false ->
  Forall (fun d => isWhiteSpace d = true) ws ->
  trim (c :: a ++ z :: ws) = c :: a ++ [z].
Proof.
  intros Hc Hz Hws. unfold trim.
  rewrite (trimStart_kept _ c Hc).
  change (c :: a ++ z :: ws) with ((c :: a) ++ z :: ws).
  rewrite rev_app_distr. simpl rev at 1. rewrite <- app_assoc. simpl app at 2.
  rewrite trimStart_spaces; [|now apply Forall_rev|exact Hz].
  simpl rev. now rewrite rev_app_distr, rev_involutive.
Qed.

Lemma groups_fullVpcPattern :
  groups fullVpcPattern =
    [Chr (ch "{") >> Star space true >> Star anyChar false >> Chr (ch "}") >>
     Star space true].
Proof. reflexivity. Qed.

Lemma occurs_In (sub s : jsstring) (c : N) : occurs sub s -> In c sub -> In c s.
Proof.
  intros [before [after ->]] H. apply in_or_app. right. apply in_or_app. now left.
Qed.

Lemma analyzeContent_config (filePath content c : jsstring) :
  config (analyzeContent filePath content) = Some c ->
  (exists inner, c = ch "{" :: inner ++ [ch "}"]) /\
  occurs c content /\
  trim c = c /\
  migrationReady (analyzeContent filePath content) = true.
Proof.
  unfold analyzeContent. simpl config. simpl migrationReady.
  destruct (0 <? _); [|discriminate].
  destruct (search fullVpcPattern content) as [[m caps]|] eqn:Hs; [|discriminate].
  destruct caps as [|[g|] [|? ?]]; try discriminate.
  destruct g as [|x g]; [discriminate|]. intros H. injection H as <-.
  apply search_sound in Hs as [before [rest [cap [-> [_ [Hcaps Hcap]]]]]].
  change (captures fullVpcPattern cap) with [cap] in Hcaps. injection Hcaps as <-.
  destruct Hcap as [H | [y [a [H [Hy [Ha Hl]]]]]]; [discriminate|].
  injection H as <-. rewrite groups_fullVpcPattern in Ha.
  destruct Ha as [<- | []].
  apply lang_Seq in Hl as [u1 [v1 [E [H1 Hl]]]]. apply lang_Chr in H1 as ->.
  apply lang_Seq in Hl as [u2 [v2 [-> [H2 Hl]]]].
  apply lang_Seq in Hl as [u3 [v3 [-> [H3 Hl]]]].
  apply lang_Seq in Hl as [u4 [v4 [-> [H4 Hl]]]]. apply lang_Chr in H4 as ->.
  apply lang_Star in Hl.
  assert (Ex : x :: g = ch "{" :: (u2 ++ u3) ++ ch "}" :: v4).
  { rewrite E. simpl. now rewrite <- app_assoc. }
  rewrite Ex in *. clear Ex E.
  rewrite (trim_spaces_after (u2 ++ u3) v4 (ch "{") (ch "}") eq_refl eq_refl Hl).
  split; [now exists (u2 ++ u3)|]. split; [|split; [|reflexivity]].
  - apply occurs_app_r, occurs_app_l.
    apply occurs_trans with (2 := Hy).
    exists [], v4. simpl. now rewrite <- !app_assoc.
  - apply (trim_spaces_after (u2 ++ u3) [] (ch "{") (ch "}") eq_refl eq_refl).
    constructor.
Qed.

(** X6.  When the analysis has a configuration, it is a part of the text
    of the file that starts with an opening brace, ends with a closing
    brace and has no white space around it; and the analysis is then
    ready for migration. *)
Theorem analyze_config_in_braces (filePath content c : jsstring) :
  config (analyzeContent filePath content) = Some c ->
  (exists inner, c = ch "{" :: inner ++ [ch "}"]) /\
  occurs c content /\
  trim c = c /\
  migrationReady (analyzeContent filePath content) = true.
Proof. apply analyzeContent_config. Qed.

Lemma analyze_config_in_braces_witness :
  occurs (lit "{ cidr: '10.0.0.0/16' }") stackSource.
Proof.
  apply (analyze_config_in_braces stackPath stackSource (lit "{ cidr: '10.0.0.0/16' }")).
  reflexivity.
Defined.

(** X7.  A text without an opening brace, or without a closing brace, has
    no configuration, whether or not it has constructs. *)
Theorem analyze_no_brace_no_config (filePath content : jsstring) :
  ~ In (ch "{") content \/ ~ In (ch "}") content ->
  config (analyzeContent filePath content) = None.
Proof.
  intros H. destruct (config (analyzeContent filePath content)) as [c|] eqn:Hc;
    [|reflexivity].
  apply analyzeContent_config in Hc as [[inner ->] [Ho _]].
  exfalso. destruct H as [H | H]; apply H; apply (occurs_In _ _ _ Ho).
  - now left.
  - right. apply in_or_app. right. now left.
Qed.

Lemma analyze_no_brace_no_config_witness :
  config (analyzeContent stackPath (lit "const vpc = new ec2.Vpc(this, 'Net');")) = None /\
  migrationReady (analyzeContent stackPath (lit "const vpc = new ec2.Vpc(this, 'Net');")) = true.
Proof.
  split; [|reflexivity].
  apply (analyze_no_brace_no_config stackPath (lit "const vpc = new ec2.Vpc(this, 'Net');")).
  left. apply absent_char. reflexivity.
Defined.

(** ** validate-vpc-migration: which issues are recorded *)

Lemma in_push {A : Type} (b : bool) (l : list A) (y x : A) :
  In x (if b then l ++ [y] else l) <-> In x l \/ (b = true /\ x = y).
Proof.
  destruct b.
  - rewrite in_app_iff. simpl. intuition.
  - intuition discriminate.
Qed.

Lemma push_nil {A : Type} (b : bool) (l : list A) (y : A) :
  (if b then l ++ [y] else l) = [] <-> l = [] /\ b = false.
Proof.
  destruct b.
  - split; [intros H; apply app_eq_nil in H as [_ H]; discriminate | intros [_ H]; discriminate].
  - tauto.
Qed.

Lemma push_length {A : Type} (b : bool) (l : list A) (y : A) :
  length (if b then l ++ [y] else l) <= S (length l).
Proof. destruct b; [rewrite length_app; simpl; lia | lia]. Qed.

Lemma status_pass (l : list Issue) :
  (if length l =? 0 then lit "PASS" else lit "FAIL") = lit "PASS" <-> l = [].
Proof. destruct l; simpl; split; (reflexivity || discriminate). Qed.

(** X8.  The status is "PASS" exactly when the migrated code contains
    "VpcV2" and, for each of the pairs cidrMask / primaryAddressBlock,
    subnetConfiguration / SubnetV2 and natGateways / addNatGateway, it
    is not the case that the original contains the first text and the
    migrated code lacks the second. *)
Theorem validate_pass_conditions (originalCode migratedCode : jsstring) :
  status (validation originalCode migratedCode) = lit "PASS" <->
  includes migratedCode (lit "VpcV2") = true /\
  includes originalCode (lit "cidrMask") &&
    negb (includes migratedCode (lit "primaryAddressBlock")) = false /\
  includes originalCode (lit "subnetConfiguration") &&
    negb (includes migratedCode (lit "SubnetV2")) = false /\
  includes originalCode (lit "natGateways") &&
    negb (includes migratedCode (lit "addNatGateway")) = false.
Proof.
  unfold validation. simpl status. rewrite status_pass.
  unfold validationResults. cbv zeta.
  rewrite !push_nil, negb_false_iff. tauto.
Qed.

(** X9.  Each of the four issues is recorded exactly under its own
    condition: the missing construct when the migrated code lacks
    "VpcV2", and each of the three others when the original contains the
    old text and the migrated code lacks the new one.  At most four
    issues are recorded; the recommendations are those of the issues, in
    their order, or the one success message when there is no issue. *)
Theorem validate_issue_conditions (originalCode migratedCode : jsstring) :
  (hasIssue (lit "Missing VpcV2 construct")
            (issues (validation originalCode migratedCode)) <->
   includes migratedCode (lit "VpcV2") = false) /\
  (hasIssue (lit "IP addressing not properly migrated")
            (issues (validation originalCode migratedCode)) <->
   includes originalCode (lit "cidrMask") = true /\
   includes migratedCode (lit "primaryAddressBlock") = false) /\
  (hasIssue (lit "Subnet configuration not properly migrated")
            (issues (validation originalCode migratedCode)) <->
   includes originalCode (lit "subnetConfiguration") = true /\
   includes migratedCode (lit "SubnetV2") = false) /\
  (hasIssue (lit "NAT gateway configuration not properly migrated")
            (issues (validation originalCode migratedCode)) <->
   includes originalCode (lit "natGateways") = true /\
   includes migratedCode (lit "addNatGateway") = false) /\
  length (issues (validation originalCode migratedCode)) <= 4 /\
  (issues (validation originalCode migratedCode) = [] /\
   recommendations_ (validation originalCode migratedCode) =
     [lit "Migration successful! Test your infrastructure code to ensure it works as expected."] \/
   issues (validation originalCode migratedCode) <> [] /\
   recommendations_ (validation originalCode migratedCode) =
     map recommendation (issues (validation originalCode migratedCode))).
Proof.
  unfold validation. simpl issues. simpl recommendations_.
  assert (Hin : forall r, In r (validationResults originalCode migratedCode) <->
     ((((False \/
         negb (includes migratedCode (lit "VpcV2")) = true /\
         r = {| issue := lit "Missing VpcV2 construct";
                severity := lit "Error";
                recommendation :=
                  lit "Replace Vpc with VpcV2 from @aws-cdk/aws-ec2-alpha" |}) \/
        includes originalCode (lit "cidrMask") &&
          negb (includes migratedCode (lit "primaryAddressBlock")) = true /\
        r = {| issue := lit "IP addressing not properly migrated";
               severity := lit "Error";
               recommendation :=
                 lit "Use primaryAddressBlock: IpAddresses.ipv4() instead of cidrMask" |}) \/
       includes originalCode (lit "subnetConfiguration") &&
         negb (includes migratedCode (lit "SubnetV2")) = true /\
       r = {| issue := lit "Subnet configuration not properly migrated";
              severity := lit "Warning";
              recommendation :=
                lit "Use SubnetV2 constructs instead of subnetConfiguration array" |}) \/
      includes originalCode (lit "natGateways") &&
        negb (includes migratedCode (lit "addNatGateway")) = true /\
      r = {| issue := lit "NAT gateway configuration not properly migrated";
             severity := lit "Warning";
             recommendation :=
               lit "Use vpc.addNatGateway() method instead of natGateways property" |})).
  { intros r. unfold validationResults. cbv zeta. rewrite !in_push. simpl In. tauto. }
  unfold hasIssue.
  split; [|split; [|split; [|split; [|split]]]].
  - split.
    + intros [r [H Ht]]. apply Hin in H.
      destruct H as [[[[[] | [Hb ->]] | [_ ->]] | [_ ->]] | [_ ->]];
        simpl in Ht; try discriminate. now apply negb_true_iff.
    + intros H. eexists. split;
        [apply Hin; left; left; left; right;
         split; [now apply negb_true_iff | reflexivity] | reflexivity].
  - split.
    + intros [r [H Ht]]. apply Hin in H.
      destruct H as [[[[[] | [_ ->]] | [Hb ->]] | [_ ->]] | [_ ->]];
        simpl in Ht; try discriminate.
      apply andb_true_iff in Hb as [H1 H2]. now apply negb_true_iff in H2.
    + intros [H1 H2]. eexists. split;
        [apply Hin; left; left; right;
         split; [now rewrite H1, H2 | reflexivity] | reflexivity].
  - split.
    + intros [r [H Ht]]. apply Hin in H.
      destruct H as [[[[[] | [_ ->]] | [_ ->]] | [Hb ->]] | [_ ->]];
        simpl in Ht; try discriminate.
      apply andb_true_iff in Hb as [H1 H2]. now apply negb_true_iff in H2.
    + intros [H1 H2]. eexists. split;
        [apply Hin; left; right;
         split; [now rewrite H1, H2 | reflexivity] | reflexivity].
  - split.
    + intros [r [H Ht]]. apply Hin in H.
      destruct H as [[[[[] | [_ ->]] | [_ ->]] | [_ ->]] | [Hb ->]];
        simpl in Ht; try discriminate.
      apply andb_true_iff in Hb as [H1 H2]. now apply negb_true_iff in H2.
    + intros [H1 H2]. eexists. split;
        [apply Hin; right;
         split; [now rewrite H1, H2 | reflexivity] | reflexivity].
  - unfold validationResults. cbv zeta.
    repeat (etransitivity; [apply push_length | apply le_n_S]). simpl. lia.
  - destruct (validationResults originalCode migratedCode);
      [left; split; reflexivity | right; split; [discriminate | reflexivity]].
Qed.

(** ** generate-migration-docs: which changes are listed *)

Lemma changes_In (originalCode migratedCode x : jsstring) :
  In x (changes originalCode migratedCode) <->
  ((((False \/
      includes originalCode (lit "Vpc") && includes migratedCode (lit "VpcV2") = true /\
      x = lit "Upgraded from Vpc to VpcV2 construct") \/
     includes originalCode (lit "cidrMask") &&
       includes migratedCode (lit "primaryAddressBlock") = true /\
     x = lit "Migrated CIDR configuration to use primaryAddressBlock") \/
    includes originalCode (lit "subnetConfiguration") &&
      includes migratedCode (lit "SubnetV2") = true /\
    x = lit "Replaced subnetConfiguration array with explicit SubnetV2 constructs") \/
   includes originalCode (lit "natGateways") &&
     includes migratedCode (lit "addNatGateway") = true /\
   x = lit "Replaced natGateways property with addNatGateway() method calls").
Proof.
  unfold changes. cbv zeta. rewrite !in_push. simpl In. tauto.
Qed.

(** X10.  Each of the four changes is listed exactly when the original
    contains the old text and the migrated code the new one; at most four
    changes are listed, and none at all when the migrated code contains
    none of "VpcV2", "primaryAddressBlock", "SubnetV2" and
    "addNatGateway". *)
Theorem document_change_conditions (originalCode migratedCode : jsstring) :
  (In (lit "Upgraded from Vpc to VpcV2 construct") (changes originalCode migratedCode) <->
   includes originalCode (lit "Vpc") = true /\
   includes migratedCode (lit "VpcV2") = true) /\
  (In (lit "Migrated CIDR configuration to use primaryAddressBlock")
      (changes originalCode migratedCode) <->
   includes originalCode (lit "cidrMask") = true /\
   includes migratedCode (lit "primaryAddressBlock") = true) /\
  (In (lit "Replaced subnetConfiguration array with explicit SubnetV2 constructs")
      (changes originalCode migratedCode) <->
   includes originalCode (lit "subnetConfiguration") = true /\
   includes migratedCode (lit "SubnetV2") = true) /\
  (In (lit "Replaced natGateways property with addNatGateway() method calls")
      (changes originalCode migratedCode) <->
   includes originalCode (lit "natGateways") = true /\
   includes migratedCode (lit "addNatGateway") = true) /\
  length (changes originalCode migratedCode) <= 4 /\
  (changes originalCode migratedCode = [] <->
   includes originalCode (lit "Vpc") && includes migratedCode (lit "VpcV2") = false /\
   includes originalCode (lit "cidrMask") &&
     includes migratedCode (lit "primaryAddressBlock") = false /\
   includes originalCode (lit "subnetConfiguration") &&
     includes migratedCode (lit "SubnetV2") = false /\
   includes originalCode (lit "natGateways") &&
     includes migratedCode (lit "addNatGateway") = false).
Proof.
  rewrite !changes_In, <- !andb_true_iff.
  split; [|split; [|split; [|split; [|split]]]].
  - split.
    + intros [[[[[] | [H _]] | [_ H]] | [_ H]] | [_ H]]; (exact H || discriminate).
    + intros H. left; left; left; right. now split.
  - split.
    + intros [[[[[] | [_ H]] | [H _]] | [_ H]] | [_ H]]; (exact H || discriminate).
    + intros H. left; left; right. now split.
  - split.
    + intros [[[[[] | [_ H]] | [_ H]] | [H _]] | [_ H]]; (exact H || discriminate).
    + intros H. left; right. now split.
  - split.
    + intros [[[[[] | [_ H]] | [_ H]] | [_ H]] | [H _]]; (exact H || discriminate).
    + intros H. right. now split.
  - unfold changes. cbv zeta.
    repeat (etransitivity; [apply push_length | apply le_n_S]). simpl. lia.
  - unfold changes. cbv zeta. rewrite !push_nil. tauto.
Qed.

Lemma validationResults_In_cidr (originalCode migratedCode : jsstring) :
  hasIssue (lit "IP addressing not properly migrated")
           (validationResults originalCode migratedCode) <->
  includes originalCode (lit "cidrMask") &&
    negb (includes migratedCode (lit "primaryAddressBlock")) = true.
Proof.
  unfold hasIssue, validationResults. cbv zeta. split.
  - intros [r [H Ht]]. rewrite !in_push in H. simpl In in H.
    destruct H as [[[[[] | [_ ->]] | [Hb ->]] | [_ ->]] | [_ ->]];
      simpl in Ht; try discriminate. exact Hb.
  - intros H. eexists. split; [rewrite !in_push; left; left; right; split;
                               [exact H | reflexivity] | reflexivity].
Qed.

Lemma validationResults_In_subnet (originalCode migratedCode : jsstring) :
  hasIssue (lit "Subnet configuration not properly migrated")
           (validationResults originalCode migratedCode) <->
  includes originalCode (lit "subnetConfiguration") &&
    negb (includes migratedCode (lit "SubnetV2")) = true.
Proof.
  unfold hasIssue, validationResults. cbv zeta. split.
  - intros [r [H Ht]]. rewrite !in_push in H. simpl In in H.
    destruct H as [[[[[] | [_ ->]] | [_ ->]] | [Hb ->]] | [_ ->]];
      simpl in Ht; try discriminate. exact Hb.
  - intros H. eexists. split; [rewrite !in_push; left; right; split;
                               [exact H | reflexivity] | reflexivity].
Qed.

Lemma validationResults_In_nat (originalCode migratedCode : jsstring) :
  hasIssue (lit "NAT gateway configuration not properly migrated")
           (validationResults originalCode migratedCode) <->
  includes originalCode (lit "natGateways") &&
    negb (includes migratedCode (lit "addNatGateway")) = true.
Proof.
  unfold hasIssue, validationResults. cbv zeta. split.
  - intros [r [H Ht]]. rewrite !in_push in H. simpl In in H.
    destruct H as [[[[[] | [_ ->]] | [_ ->]] | [_ ->]] | [Hb ->]];
      simpl in Ht; try discriminate. exact Hb.
  - intros H. eexists. split; [rewrite !in_push; right; split;
                               [exact H | reflexivity] | reflexivity].
Qed.

Lemma changes_In_cidr (originalCode migratedCode : jsstring) :
  In (lit "Migrated CIDR configuration to use primaryAddressBlock")
     (changes originalCode migratedCode) <->
  includes originalCode (lit "cidrMask") &&
    includes migratedCode (lit "primaryAddressBlock") = true.
Proof.
  rewrite changes_In. split.
  - intros [[[[[] | [_ H]] | [H _]] | [_ H]] | [_ H]]; (exact H || discriminate).
  - intros H. left; left; right. now split.
Qed.

Lemma changes_In_subnet (originalCode migratedCode : jsstring) :
  In (lit "Replaced subnetConfiguration array with explicit SubnetV2 constructs")
     (changes originalCode migratedCode) <->
  includes originalCode (lit "subnetConfiguration") &&
    includes migratedCode (lit "SubnetV2") = true.
Proof.
  rewrite changes_In. split.
  - intros [[[[[] | [_ H]] | [_ H]] | [H _]] | [_ H]]; (exact H || discriminate).
  - intros H. left; right. now split.
Qed.

Lemma changes_In_nat (originalCode migratedCode : jsstring) :
  In (lit "Replaced natGateways property with addNatGateway() method calls")
     (changes originalCode migratedCode) <->
  includes originalCode (lit "natGateways") &&
    includes migratedCode (lit "addNatGateway") = true.
Proof.
  rewrite changes_In. split.
  - intros [[[[[] | [_ H]] | [_ H]] | [_ H]] | [H _]]; (exact H || discriminate).
  - intros H. right. now split.
Qed.

(** X11.  The documentation and the validation read the same three
    pairs of texts in opposite ways: when the original contains
    "cidrMask" ("subnetConfiguration", "natGateways"), either the
    documentation lists the matching change or the validation records
    the matching issue, and never both. *)
Theorem document_change_or_validate_issue (originalCode migratedCode : jsstring) :
  (includes originalCode (lit "cidrMask") = true ->
   (In (lit "Migrated CIDR configuration to use primaryAddressBlock")
       (changes originalCode migratedCode) <->
    ~ hasIssue (lit "IP addressing not properly migrated")
               (validationResults originalCode migratedCode))) /\
  (includes originalCode (lit "subnetConfiguration") = true ->
   (In (lit "Replaced subnetConfiguration array with explicit SubnetV2 constructs")
       (changes originalCode migratedCode) <->
    ~ hasIssue (lit "Subnet configuration not properly migrated")
               (validationResults originalCode migratedCode))) /\
  (includes originalCode (lit "natGateways") = true ->
   (In (lit "Replaced natGateways property with addNatGateway() method calls")
       (changes originalCode migratedCode) <->
    ~ hasIssue (lit "NAT gateway configuration not properly migrated")
               (validationResults originalCode migratedCode))).
Proof.
  rewrite changes_In_cidr, changes_In_subnet, changes_In_nat.
  rewrite validationResults_In_cidr, validationResults_In_subnet, validationResults_In_nat.
  split; [|split]; intros H; rewrite H; simpl;
    destruct (includes migratedCode _); simpl; split; congruence.
Qed.

Lemma document_change_or_validate_issue_witness :
  In (lit "Replaced natGateways property with addNatGateway() method calls")
     (changes (lit "new ec2.Vpc(this, 'Net', { natGateways: 1 })")
              (lit "vpc.addNatGateway({ subnet })")) <->
  ~ hasIssue (lit "NAT gateway configuration not properly migrated")
             (validationResults (lit "new ec2.Vpc(this, 'Net', { natGateways: 1 })")
                                (lit "vpc.addNatGateway({ subnet })")).
Proof.
  apply (document_change_or_validate_issue
           (lit "new ec2.Vpc(this, 'Net', { natGateways: 1 })")
           (lit "vpc.addNatGateway({ subnet })")).
  reflexivity.
Defined.

(** ** get-vpc-migration-recommendations: the shape of the list *)

(** X12.  The list of recommendations is never empty, has at most four
    entries and repeats none; the fallback recommendation only ever
    stands alone, and the subnet recommendations come before the
    IP-addressing one. *)
Theorem recommend_list_shape (cdkCode : jsstring) :
  recommendations cdkCode <> [] /\
  length (recommendations cdkCode) <= 4 /\
  NoDup (recommendations cdkCode) /\
  (In fallbackRecommendation (recommendations cdkCode) <->
   recommendations cdkCode = [fallbackRecommendation]) /\
  (recommendations cdkCode = [fallbackRecommendation] \/
   recommendations cdkCode = [ipRecommendation] \/
   recommendations cdkCode = subnetRecommendations \/
   recommendations cdkCode = subnetRecommendations ++ [ipRecommendation]).
Proof.
  rewrite recommendations_cases.
  assert (Hnd : NoDup (subnetRecommendations ++ [ipRecommendation])).
  { simpl. repeat constructor; simpl; intuition discriminate. }
  destruct (includes cdkCode (lit "subnet"));
    destruct (includes cdkCode (lit "cidr") || includes cdkCode (lit "ipAddress"));
    (split; [discriminate|]); (split; [simpl; lia|]); (split; [|split]).
  - exact Hnd.
  - split; [simpl; intuition discriminate | discriminate].
  - auto.
  - now apply NoDup_app_remove_r in Hnd.
  - split; [simpl; intuition discriminate | discriminate].
  - auto.
  - repeat constructor; simpl; tauto.
  - split; [simpl; intuition discriminate | discriminate].
  - auto.
  - repeat constructor; simpl; tauto.
  - split; [reflexivity | intros _; now left].
  - auto.
Qed.

(** ** The placeholder variant *)

(** X13.  The placeholder analysis of a readable file does not depend on
    the text of the file: the part of the prompt it returns is the first
    500 characters of the fixed head of the prompt, which the text of
    the file never reaches. *)
Theorem placeholder_analyze_ignores_content
        (fs : FileSystem) (filePath content : jsstring) :
  access fs filePath = Ok tt ->
  readFile fs filePath = Ok content ->
  Placeholder.analyze fs filePath =
    Ok (Tool.textResult
          (stringify
             (Placeholder.placeholderToJSON
                {| Placeholder.file := filePath;
                   Placeholder.analysisMethod := lit "AI-based analysis";
                   Placeholder.prompt :=
                     substring0 500 Placeholder.promptHead ++ lit "...";
                   Placeholder.migrationGuide_ := Placeholder.migrationGuide;
                   Placeholder.note := lit "This is a placeholder. In a real implementation, this would be replaced with the AI service response." |}))).
Proof.
  intros Ha Hr.
  assert (E : substring0 500 (Placeholder.promptHead ++ content ++ Placeholder.promptTail) =
              substring0 500 Placeholder.promptHead).
  { unfold substring0. rewrite firstn_app.
    replace (500 - length Placeholder.promptHead) with 0 by (vm_compute; reflexivity).
    apply app_nil_r. }
  unfold Placeholder.analyze. rewrite Ha, Hr.
  cbv beta iota delta [tryCatch bind ret]. now rewrite E.
Qed.

Lemma placeholder_analyze_ignores_content_witness :
  Placeholder.analyze exampleFs stackPath =
    Ok (Tool.textResult
          (stringify
             (Placeholder.placeholderToJSON
                {| Placeholder.file := stackPath;
                   Placeholder.analysisMethod := lit "AI-based analysis";
                   Placeholder.prompt :=
                     substring0 500 Placeholder.promptHead ++ lit "...";
                   Placeholder.migrationGuide_ := Placeholder.migrationGuide;
                   Placeholder.note := lit "This is a placeholder. In a real implementation, this would be replaced with the AI service response." |}))).
Proof.
  apply (placeholder_analyze_ignores_content exampleFs stackPath stackSource);
    reflexivity.
Defined.

Lemma placeholder_addImports_marked (code : jsstring) :
  includes (Placeholder.addImports code) (lit "@aws-cdk/aws-ec2-alpha") = true.
Proof.
  unfold Placeholder.addImports.
  destruct (includes code (lit "@aws-cdk/aws-ec2-alpha")) eqn:H; simpl negb; cbv iota.
  - exact H.
  - now apply includes_app_l.
Qed.

(** X14.  The placeholder refactoring answers the same whether or not
    the migration guide can be read and whatever the migration approach
    is, and never throws.  Its import step adds the import statement at
    most once: on a text it has already treated, and on any result of
    the tool, it changes nothing. *)
Theorem placeholder_refactor_import_once
        (fs : FileSystem) (cdkCode migrationApproach : jsstring) :
  Placeholder.refactor fs cdkCode migrationApproach =
    Ok (Tool.textResult (Placeholder.refactorCode cdkCode)) /\
  Placeholder.addImports (Placeholder.addImports cdkCode) =
    Placeholder.addImports cdkCode /\
  Placeholder.addImports (Placeholder.refactorCode cdkCode) =
    Placeholder.refactorCode cdkCode /\
  Placeholder.refactorCode (Placeholder.refactorCode cdkCode) =
    Placeholder.placeholderComment ++ Placeholder.refactorCode cdkCode.
Proof.
  assert (Hstep : forall code,
             includes code (lit "@aws-cdk/aws-ec2-alpha") = true ->
             Placeholder.addImports code = code).
  { intros code H. unfold Placeholder.addImports. now rewrite H. }
  assert (Hout : Placeholder.addImports (Placeholder.refactorCode cdkCode) =
                 Placeholder.refactorCode cdkCode).
  { apply Hstep. unfold Placeholder.refactorCode.
    apply includes_app_r, placeholder_addImports_marked. }
  split; [|split; [|split]].
  - unfold Placeholder.refactor.
    destruct (readFile fs Placeholder.migrationGuide); reflexivity.
  - apply Hstep, placeholder_addImports_marked.
  - exact Hout.
  - unfold Placeholder.refactorCode at 1. now rewrite Hout.
Qed.

(** ** refactor-vpc: the import step, run after run *)

Lemma importBlock_keeps_absent (sub code : jsstring) :
  sub <> [] ->
  ~ In 10%N sub ->
  includes importSection sub = false ->
  includes code sub = false ->
  includes (importBlock ++ code) sub = false.
Proof.
  intros Hne Hnl Himp Hcode. rewrite includes_false in *. intros H.
  unfold importBlock in H. rewrite <- !app_assoc in H.
  change (newline ++ newline ++ code) with (10%N :: 10%N :: code) in H.
  apply (occurs_split sub importSection (10%N :: code) 10%N Hnl) in H as [H | H];
    [contradiction|].
  apply (occurs_split sub [] code 10%N Hnl) in H as [[b [a H]] | H]; [|contradiction].
  symmetry in H. apply app_eq_nil in H as [_ H]. apply app_eq_nil in H as [H _].
  contradiction.
Qed.

Lemma refactorCode_plain (cdkCode migrationApproach : jsstring) :
  includes migrationApproach (lit "Subnet") = false ->
  includes migrationApproach (lit "cidr") = false ->
  includes migrationApproach (lit "IPAM") = false ->
  refactorCode cdkCode migrationApproach = addImports cdkCode.
Proof.
  intros H1 H2 H3. unfold refactorCode, rewriteSubnets, rewriteCidr, rewriteIpam.
  now rewrite H1, H2, H3.
Qed.

(** X15.  With a migration approach that names none of "Subnet", "cidr"
    and "IPAM", every run of the tool on a code without "Ipam" puts one
    more import statement in front: after [n] runs the code has [n] of
    them. *)
Theorem refactor_import_every_run (cdkCode migrationApproach : jsstring) (n : nat) :
  includes migrationApproach (lit "Subnet") = false ->
  includes migrationApproach (lit "cidr") = false ->
  includes migrationApproach (lit "IPAM") = false ->
  includes cdkCode (lit "Ipam") = false ->
  Nat.iter n (fun code => refactorCode code migrationApproach) cdkCode =
    concat (repeat importBlock n) ++ cdkCode.
Proof.
  intros H1 H2 H3 Hc.
  assert (Hinv : includes (concat (repeat importBlock n) ++ cdkCode) (lit "Ipam") = false /\
                 Nat.iter n (fun code => refactorCode code migrationApproach) cdkCode =
                 concat (repeat importBlock n) ++ cdkCode).
  { induction n as [|n [IHa IHb]]; [now split|].
    change (repeat importBlock (S n)) with (importBlock :: repeat importBlock n).
    rewrite concat_cons, <- app_assoc, Nat.iter_succ. split.
    - apply importBlock_keeps_absent; [discriminate | | reflexivity | exact IHa].
      apply absent_char. reflexivity.
    - rewrite IHb, (refactorCode_plain _ _ H1 H2 H3). unfold addImports.
      rewrite IHa. simpl negb. rewrite !orb_true_r. reflexivity. }
  apply Hinv.
Qed.

Lemma refactor_import_every_run_witness :
  Nat.iter 3 (fun code => refactorCode code (lit "defaults"))
           (lit "new ec2.Vpc(this, 'Net')") =
    importBlock ++ importBlock ++ importBlock ++ lit "new ec2.Vpc(this, 'Net')".
Proof.
  rewrite (refactor_import_every_run (lit "new ec2.Vpc(this, 'Net')") (lit "defaults") 3);
    reflexivity.
Defined.

(** X16.  With such a migration approach the tool returns the code as it
    is exactly when the code contains all of "SubnetConfiguration",
    "IpAddresses" and "Ipam"; otherwise it returns the import statement,
    a blank line and the code. *)
Theorem refactor_unchanged_iff_markers (cdkCode migrationApproach : jsstring) :
  includes migrationApproach (lit "Subnet") = false ->
  includes migrationApproach (lit "cidr") = false ->
  includes migrationApproach (lit "IPAM") = false ->
  (refactorCode cdkCode migrationApproach = cdkCode <->
   includes cdkCode (lit "SubnetConfiguration") &&
   includes cdkCode (lit "IpAddresses") &&
   includes cdkCode (lit "Ipam") = true) /\
  (refactorCode cdkCode migrationApproach = cdkCode \/
   refactorCode cdkCode migrationApproach = importBlock ++ cdkCode).
Proof.
  intros H1 H2 H3. rewrite (refactorCode_plain _ _ H1 H2 H3). unfold addImports.
  rewrite <- !negb_andb.
  destruct (includes cdkCode (lit "SubnetConfiguration") &&
            includes cdkCode (lit "IpAddresses") &&
            includes cdkCode (lit "Ipam")); simpl negb; cbv iota.
  - split; [split; reflexivity | now left].
  - split; [|right; unfold importBlock; now rewrite <- !app_assoc].
    split; [|discriminate]. intros H. apply (f_equal (@length N)) in H.
    rewrite !length_app in H. simpl in H. lia.
Qed.

Lemma refactor_unchanged_iff_markers_witness :
  refactorCode (lit "IpAddresses.ipv4Ipam(pool) // SubnetConfiguration") (lit "defaults") =
    lit "IpAddresses.ipv4Ipam(pool) // SubnetConfiguration".
Proof.
  apply (refactor_unchanged_iff_markers
           (lit "IpAddresses.ipv4Ipam(pool) // SubnetConfiguration") (lit "defaults"));
    reflexivity.
Defined.

(** ** refactor-vpc: what the rewrites do *)

Lemma prefix_short (u v sub q : jsstring) :
  u ++ v = sub ++ q -> length sub <= length u -> exists t, u = sub ++ t.
Proof.
  intros H Hlen. apply app_eq_app in H as [l [[-> _] | [-> _]]].
  - now exists l.
  - rewrite length_app in Hlen. destruct l; [|simpl in Hlen; lia].
    exists []. now rewrite !app_nil_r.
Qed.

Lemma removelast_last (sub : jsstring) :
  sub <> [] -> exists z, sub = removelast sub ++ [z].
Proof.
  intros H. destruct (exists_last H) as [l [z ->]].
  exists z. now rewrite removelast_last.
Qed.

(** A text that starts with [sub] after a nonempty [p] has an occurrence
    of [sub] that begins in [p]. *)
Lemma early_start (sub p rest q : jsstring) :
  sub <> [] -> p <> [] ->
  p ++ sub ++ rest = sub ++ q -> occurs sub (p ++ removelast sub).
Proof.
  intros Hsub Hp H. destruct (removelast_last sub Hsub) as [z Hz].
  assert (Hlen : length sub <= length (p ++ removelast sub)).
  { rewrite Hz at 1. rewrite !length_app. simpl. destruct p; [congruence|].
    simpl. lia. }
  assert (E : (p ++ removelast sub) ++ ([z] ++ rest) = sub ++ q).
  { rewrite <- H, <- !app_assoc. f_equal. rewrite app_assoc. now rewrite <- Hz. }
  destruct (prefix_short _ _ _ _ E Hlen) as [t ->].
  exists [], t. reflexivity.
Qed.

Lemma splitAtFirst_first (sub pre post : jsstring) :
  sub <> [] ->
  ~ occurs sub (pre ++ removelast sub) ->
  splitAtFirst (pre ++ sub ++ post) sub = Some (pre, post).
Proof.
  intros Hsub. induction pre as [|c pre IH]; intros Hno.
  - simpl app. destruct sub as [|x sub]; [congruence|].
    assert (Hs : startsWith ((x :: sub) ++ post) (x :: sub) = true).
    { apply startsWith_spec. now exists post. }
    assert (Hk : skipn (length (x :: sub)) ((x :: sub) ++ post) = post).
    { apply skipn_length_app. }
    simpl app in *. simpl splitAtFirst. simpl in Hs. rewrite Hs.
    simpl in Hk. now rewrite Hk.
  - assert (Hs : startsWith ((c :: pre) ++ sub ++ post) sub = false).
    { destruct (startsWith ((c :: pre) ++ sub ++ post) sub) eqn:E; [|reflexivity].
      apply startsWith_spec in E as [q E]. exfalso. apply Hno.
      apply (early_start sub (c :: pre) post q Hsub); [discriminate | exact E]. }
    simpl app in *. simpl splitAtFirst. rewrite Hs. rewrite IH; [reflexivity|].
    intros [b [a H]]. apply Hno. exists (c :: b), a. simpl. now rewrite H.
Qed.

Lemma cidrTemplate_expands (matched before after : jsstring) :
  getSubstitution matched before after [] cidrTemplate = cidrTemplate.
Proof. reflexivity. Qed.

Lemma ipamTemplate_expands (matched before after : jsstring) :
  getSubstitution matched before after [] ipamTemplate = ipamTemplate.
Proof. reflexivity. Qed.

(** X17.  With a migration approach that names "cidr" and neither
    "Subnet" nor "IPAM", the tool replaces the first occurrence of
    [ipAddresses: IpAddresses.cidr('$1')] by
    [primaryAddressBlock:  IpAddresses.ipv4('$1')], the [$1] as it is
    written, and leaves every later occurrence in place. *)
Theorem refactor_cidr_first_occurrence
        (migrationApproach before after : jsstring) :
  includes migrationApproach (lit "Subnet") = false ->
  includes migrationApproach (lit "cidr") = true ->
  includes migrationApproach (lit "IPAM") = false ->
  includes (before ++ removelast cidrSearch) cidrSearch = false ->
  refactor (before ++ lit "ipAddresses: IpAddresses.cidr('$1')" ++ after)
           migrationApproach =
    Ok (Tool.textResult
          (addImports
             (before ++ lit "primaryAddressBlock:  IpAddresses.ipv4('$1')" ++ after))).
Proof.
  intros H1 H2 H3 Hfirst. apply includes_false in Hfirst.
  unfold refactor, refactorCode, rewriteSubnets, rewriteCidr, rewriteIpam.
  rewrite H1, H2, H3. unfold replaceString.
  change (lit "ipAddresses: IpAddresses.cidr('$1')") with cidrSearch.
  rewrite (splitAtFirst_first cidrSearch before after); [|discriminate|exact Hfirst].
  now rewrite cidrTemplate_expands.
Qed.

Lemma refactor_cidr_first_occurrence_witness :
  refactor (lit "a: { ipAddresses: IpAddresses.cidr('$1') }, b: { ipAddresses: IpAddresses.cidr('$1') }")
           (lit "use cidr blocks") =
    Ok (Tool.textResult
          (addImports
             (lit "a: { primaryAddressBlock:  IpAddresses.ipv4('$1') }, b: { ipAddresses: IpAddresses.cidr('$1') }"))).
Proof.
  apply (refactor_cidr_first_occurrence
           (lit "use cidr blocks") (lit "a: { ")
           (lit " }, b: { ipAddresses: IpAddresses.cidr('$1') }"));
    reflexivity.
Defined.

Lemma replaceAllFrom_none (r : regex) (tpl : jsstring) (s : jsstring) :
  forall (before : jsstring) (skip : nat),
    (forall p t, s = p ++ t -> exec r t = None) ->
    replaceAllFrom r tpl before s skip = skipn skip s.
Proof.
  induction s as [|c s IH]; intros before skip Hno.
  - rewrite skipn_nil. simpl. destruct skip; [|reflexivity].
    now rewrite (Hno [] [] eq_refl).
  - assert (Hs : forall b n, replaceAllFrom r tpl b s n = skipn n s).
    { intros b n. apply IH. intros p t ->. apply (Hno (c :: p) t). reflexivity. }
    destruct skip as [|n].
    + rewrite replaceAllFrom_no_match; [|apply (Hno [] (c :: s)); reflexivity].
      now rewrite Hs.
    + rewrite replaceAllFrom_skip. apply Hs.
Qed.

Lemma subnetPattern_starts (t rest : jsstring) (cap : option jsstring) :
  exec subnetPattern t = Some (rest, cap) ->
  exists q, t = lit "subnetConfiguration:" ++ q.
Proof.
  intros H. apply exec_sound in H as [w [-> [Hw _]]].
  unfold subnetPattern in Hw.
  apply lang_Seq in Hw as [u [v [-> [Hu _]]]]. apply lang_str in Hu as ->.
  exists (v ++ rest). now rewrite <- app_assoc.
Qed.

Lemma subnet_rewrite_absent (before s : jsstring) :
  includes s (lit "subnetConfiguration:") = false ->
  replaceAllFrom subnetPattern subnetTemplate before s 0 = s.
Proof.
  intros H. apply includes_false in H.
  rewrite replaceAllFrom_none; [reflexivity|].
  intros p t ->. destruct (exec subnetPattern t) as [[rest cap]|] eqn:He; [|reflexivity].
  apply subnetPattern_starts in He as [q ->]. exfalso. apply H. now exists p, q.
Qed.

(** X18.  A code that contains none of [subnetConfiguration:],
    [ipAddresses: IpAddresses.cidr('$1')] and
    [ipAddresses: IpAddresses.awsIpamAllocation('$1')] goes through the
    three rewrites unchanged, whatever the migration approach is: the
    tool returns it with or without the import statement in front. *)
Theorem refactor_nothing_to_rewrite (cdkCode migrationApproach : jsstring) :
  includes cdkCode (lit "subnetConfiguration:") = false ->
  includes cdkCode (lit "ipAddresses: IpAddresses.cidr('$1')") = false ->
  includes cdkCode (lit "ipAddresses: IpAddresses.awsIpamAllocation('$1')") = false ->
  refactor cdkCode migrationApproach = Ok (Tool.textResult (addImports cdkCode)).
Proof.
  intros Hs Hc Hi.
  assert (E : rewriteSubnets migrationApproach cdkCode = cdkCode).
  { unfold rewriteSubnets, replaceAll.
    destruct (includes migrationApproach (lit "Subnet")); [|reflexivity].
    now apply subnet_rewrite_absent. }
  unfold refactor, refactorCode. rewrite E. unfold rewriteCidr, rewriteIpam.
  destruct (includes migrationApproach (lit "cidr"));
    destruct (includes migrationApproach (lit "IPAM"));
    rewrite ?(replaceString_absent _ _ _ Hc), ?(replaceString_absent _ _ _ Hi);
    reflexivity.
Qed.

Lemma refactor_nothing_to_rewrite_witness :
  refactor (lit "new ec2.Vpc(this, 'Net', { cidr: '10.0.0.0/16' })")
           (lit "Subnet, cidr and IPAM") =
    Ok (Tool.textResult
          (addImports (lit "new ec2.Vpc(this, 'Net', { cidr: '10.0.0.0/16' })"))).
Proof.
  apply (refactor_nothing_to_rewrite
           (lit "new ec2.Vpc(this, 'Net', { cidr: '10.0.0.0/16' })")
           (lit "Subnet, cidr and IPAM")); reflexivity.
Defined.

Lemma run_str (l s : jsstring) (cap : option jsstring) (k : cont) :
  run (str l) (l ++ s) cap k = k s cap.
Proof.
  revert cap k. induction l as [|c l IH]; intros cap k; simpl; [reflexivity|].
  rewrite N.eqb_refl. apply IH.
Qed.

(** A greedy star followed by a character outside its class takes the
    whole run when the rest of the pattern accepts what follows. *)
Lemma star_greedy_all (p : N -> bool) (k : cont) (cap : option jsstring)
      (w s : jsstring) (c : N) (res : mstate) :
  Forall (fun d => p d = true) w -> p c = false ->
  k (c :: s) cap = Some res ->
  star p true k cap (w ++ c :: s) = Some res.
Proof.
  intros Hw Hc Hk. induction Hw as [|d w Hd Hw IH]; simpl.
  - now rewrite Hc.
  - now rewrite Hd, IH.
Qed.

Lemma exec_subnetPattern (ws inner rest : jsstring) :
  Forall (fun d => isWhiteSpace d = true) ws ->
  inner <> [] ->
  ~ In (ch "]") inner ->
  exec subnetPattern
       (lit "subnetConfiguration:" ++ ws ++ ch "[" :: inner ++ ch "]" :: rest) =
    Some (rest, Some inner).
Proof.
  intros Hws Hne Hin.
  assert (Hclass : Forall (fun d => notChar (ch "]") d = true) inner).
  { apply Forall_forall. intros d Hd. unfold notChar. apply negb_true_iff.
    apply N.eqb_neq. intros ->. contradiction. }
  destruct inner as [|x inner]; [congruence|]. inversion Hclass as [|? ? Hx Hrest]; subst.
  unfold exec, subnetPattern.
  change (run (?a >> ?b) ?s ?cap ?k) with (run a s cap (fun s' cap' => run b s' cap' k)).
  rewrite run_str.
  change (run (?a >> ?b) ?s ?cap ?k) with (run a s cap (fun s' cap' => run b s' cap' k)).
  change (run (Star ?p ?g) ?s ?cap ?k) with (star p g k cap s).
  apply star_greedy_all; [exact Hws | reflexivity|].
  cbn [run]. rewrite N.eqb_refl. unfold Plus. cbn [run].
  change ((x :: inner) ++ ch "]" :: rest) with (x :: inner ++ ch "]" :: rest).
  cbv iota. rewrite Hx.
  apply star_greedy_all; [exact Hrest | unfold notChar; now rewrite N.eqb_refl|].
  cbv beta iota. rewrite N.eqb_refl. do 3 f_equal.
  change (x :: inner ++ ch "]" :: rest) with ((x :: inner) ++ ch "]" :: rest).
  apply consumed_app.
Qed.

Lemma replaceAllFrom_gap (r : regex) (tpl : jsstring) (pre : jsstring) :
  forall (before s : jsstring),
    (forall p1 c p2, pre = p1 ++ c :: p2 -> exec r (c :: p2 ++ s) = None) ->
    replaceAllFrom r tpl before (pre ++ s) 0 =
      pre ++ replaceAllFrom r tpl (before ++ pre) s 0.
Proof.
  induction pre as [|c pre IH]; intros before s Hno.
  - now rewrite app_nil_r.
  - simpl app. rewrite replaceAllFrom_no_match; [|apply (Hno [] c pre); reflexivity].
    rewrite IH.
    + now rewrite <- app_assoc.
    + intros p1 d p2 ->. apply (Hno (c :: p1) d p2). reflexivity.
Qed.

Lemma replaceAllFrom_skip_all (r : regex) (tpl : jsstring) (m : jsstring) :
  forall (before rest : jsstring),
    replaceAllFrom r tpl before (m ++ rest) (length m) =
      replaceAllFrom r tpl (before ++ m) rest 0.
Proof.
  induction m as [|c m IH]; intros before rest.
  - now rewrite app_nil_r.
  - simpl app. simpl length. rewrite replaceAllFrom_skip, IH.
    now rewrite <- app_assoc.
Qed.

Lemma match_then_rest (lead ws inner after : jsstring) (b c : N) :
  (lead ++ ws ++ b :: inner ++ [c]) ++ after = lead ++ ws ++ b :: inner ++ c :: after.
Proof.
  rewrite <- !app_assoc. simpl. now rewrite <- app_assoc.
Qed.

Lemma subnet_rewrite_one (before ws inner after : jsstring) :
  includes (before ++ lit "subnetConfiguration") (lit "subnetConfiguration:") = false ->
  Forall (fun d => isWhiteSpace d = true) ws ->
  inner <> [] ->
  ~ In (ch "]") inner ->
  includes after (lit "subnetConfiguration:") = false ->
  replaceAll subnetPattern subnetTemplate
             (before ++ lit "subnetConfiguration:" ++ ws ++ ch "[" :: inner ++
              ch "]" :: after) =
    before ++ lit "new SubnetV2([" ++ inner ++ lit "])" ++ after.
Proof.
  intros Hbefore Hws Hne Hin Hafter. apply includes_false in Hbefore.
  assert (He := exec_subnetPattern ws inner after Hws Hne Hin).
  assert (E : lit "subnetConfiguration:" ++ ws ++ ch "[" :: inner ++ ch "]" :: after =
              ch "s" :: (lit "ubnetConfiguration:" ++ ws ++ ch "[" :: inner ++ [ch "]"]) ++
              after).
  { now rewrite match_then_rest. }
  unfold replaceAll. rewrite replaceAllFrom_gap.
  - f_equal. rewrite E in He |- *.
    rewrite (replaceAllFrom_match _ _ _ _ _ _ _ He), subnetTemplate_expands.
    rewrite replaceAllFrom_skip_all, subnet_rewrite_absent by exact Hafter.
    rewrite <- !app_assoc. reflexivity.
  - clear He E. intros p1 c p2 ->.
    destruct (exec subnetPattern _) as [[rest cap]|] eqn:E'; [|reflexivity].
    apply subnetPattern_starts in E' as [q E']. exfalso. apply Hbefore.
    rewrite <- app_assoc. apply occurs_app_r.
    apply (early_start (lit "subnetConfiguration:") (c :: p2)
             (ws ++ ch "[" :: inner ++ ch "]" :: after) q);
      [discriminate | discriminate | exact E'].
Qed.

(** X19.  With a migration approach that names "Subnet" and neither
    "cidr" nor "IPAM", a code with one subnet configuration, that is
    [subnetConfiguration:], optional white space and a bracketed,
    nonempty text without a closing bracket, is returned with that
    configuration rewritten to [new SubnetV2([...])] around the same
    bracketed text, and with everything before and after it unchanged. *)
Theorem refactor_one_subnet_configuration
        (migrationApproach before ws inner after : jsstring) :
  includes migrationApproach (lit "Subnet") = true ->
  includes migrationApproach (lit "cidr") = false ->
  includes migrationApproach (lit "IPAM") = false ->
  includes (before ++ lit "subnetConfiguration") (lit "subnetConfiguration:") = false ->
  Forall (fun d => isWhiteSpace d = true) ws ->
  inner <> [] ->
  ~ In (ch "]") inner ->
  includes after (lit "subnetConfiguration:") = false ->
  refactor (before ++ lit "subnetConfiguration:" ++ ws ++ lit "[" ++ inner ++
            lit "]" ++ after) migrationApproach =
    Ok (Tool.textResult
          (addImports (before ++ lit "new SubnetV2([" ++ inner ++ lit "])" ++ after))).
Proof.
  intros H1 H2 H3 Hbefore Hws Hne Hin Hafter.
  unfold refactor, refactorCode, rewriteSubnets, rewriteCidr, rewriteIpam.
  rewrite H1, H2, H3.
  change (lit "[" ++ inner ++ lit "]" ++ after) with (ch "[" :: inner ++ ch "]" :: after).
  now rewrite subnet_rewrite_one.
Qed.

Lemma refactor_one_subnet_configuration_witness :
  refactor (lit "new ec2.Vpc(this, 'Net', { subnetConfiguration: [ pub, priv ], maxAzs: 2 })")
           (lit "Subnet") =
    Ok (Tool.textResult
          (addImports
             (lit "new ec2.Vpc(this, 'Net', { new SubnetV2([ pub, priv ]), maxAzs: 2 })"))).
Proof.
  apply (refactor_one_subnet_configuration
           (lit "Subnet") (lit "new ec2.Vpc(this, 'Net', { ") (lit " ")
           (lit " pub, priv ") (lit ", maxAzs: 2 })")); try reflexivity.
  - repeat constructor.
  - discriminate.
  - apply absent_char. reflexivity.
Defined.

(** ** refactor-vpc and validate-vpc-migration together *)

Lemma validationResults_In_vpc (originalCode migratedCode : jsstring) :
  hasIssue (lit "Missing VpcV2 construct")
           (validationResults originalCode migratedCode) <->
  includes migratedCode (lit "VpcV2") = false.
Proof.
  rewrite <- negb_true_iff.
  unfold hasIssue, validationResults. cbv zeta. split.
  - intros [r [H Ht]]. rewrite !in_push in H. simpl In in H.
    destruct H as [[[[[] | [Hb ->]] | [_ ->]] | [_ ->]] | [_ ->]];
      simpl in Ht; try discriminate. exact Hb.
  - intros H. eexists. split; [rewrite !in_push; left; left; left; right; split;
                               [exact H | reflexivity] | reflexivity].
Qed.

Lemma addImports_cases (code : jsstring) :
  addImports code = importBlock ++ code \/
  addImports code = code /\
  includes code (lit "SubnetConfiguration") = true /\
  includes code (lit "IpAddresses") = true /\
  includes code (lit "Ipam") = true.
Proof.
  unfold addImports.
  destruct (includes code (lit "SubnetConfiguration"));
    destruct (includes code (lit "IpAddresses"));
    destruct (includes code (lit "Ipam")); cbn [negb orb];
    try (left; unfold importBlock; now rewrite <- !app_assoc).
  right. auto.
Qed.

(** X20.  The import statement the tool puts in front names VpcV2 and
    SubnetV2.  So when the validation of a refactored code, against any
    original, records the missing construct or the subnet issue, the
    refactoring added no import statement: the refactored code contains
    "SubnetConfiguration", "IpAddresses" and "Ipam" of its own. *)
Theorem validate_after_refactor
        (originalCode cdkCode migrationApproach : jsstring) :
  hasIssue (lit "Missing VpcV2 construct")
           (validationResults originalCode (refactorCode cdkCode migrationApproach)) \/
  hasIssue (lit "Subnet configuration not properly migrated")
           (validationResults originalCode (refactorCode cdkCode migrationApproach)) ->
  includes (refactorCode cdkCode migrationApproach) (lit "SubnetConfiguration") = true /\
  includes (refactorCode cdkCode migrationApproach) (lit "IpAddresses") = true /\
  includes (refactorCode cdkCode migrationApproach) (lit "Ipam") = true /\
  startsWith (refactorCode cdkCode migrationApproach) importSection = false.
Proof.
  rewrite validationResults_In_vpc, validationResults_In_subnet.
  unfold refactorCode.
  set (code := rewriteIpam migrationApproach
                 (rewriteCidr migrationApproach
                    (rewriteSubnets migrationApproach cdkCode))).
  destruct (addImports_cases code) as [-> | [-> [H1 [H2 H3]]]].
  - assert (Hv : includes (importBlock ++ code) (lit "VpcV2") = true)
      by (apply includes_app_l; reflexivity).
    assert (Hs : includes (importBlock ++ code) (lit "SubnetV2") = true)
      by (apply includes_app_l; reflexivity).
    rewrite Hv, Hs, andb_false_r. intros [H | H]; discriminate.
  - intros H. repeat split; auto.
    destruct (startsWith code importSection) eqn:E; [|reflexivity].
    apply startsWith_spec in E as [q E].
    assert (Hv : includes code (lit "VpcV2") = true)
      by (rewrite E; apply includes_app_l; reflexivity).
    assert (Hs : includes code (lit "SubnetV2") = true)
      by (rewrite E; apply includes_app_l; reflexivity).
    rewrite Hv, Hs, andb_false_r in H. destruct H; discriminate.
Qed.

Lemma validate_after_refactor_witness :
  includes (refactorCode (lit "IpAddresses.ipv4Ipam(pool) // SubnetConfiguration")
                         (lit "defaults"))
           (lit "Ipam") = true.
Proof.
  apply (validate_after_refactor
           (lit "new ec2.Vpc(this, 'Net')")
           (lit "IpAddresses.ipv4Ipam(pool) // SubnetConfiguration")
           (lit "defaults")).
  left. eexists. split; [left; reflexivity | reflexivity].
Defined.
